(** * The remote-control HTTP service of SimpleScreenRecorder

    A shallow embedding of [src/common/HTTPServer.cpp] and
    [src/common/HTTPServer.h]: the request parser, the dispatch table, the
    endpoint handlers, the response writer and the connection slots, with
    the properties the service's specification states about them.

    Modelling conventions.
    - A [QByteArray] and a [QString] are both a [string]: a character is a
      byte. This is exact for ASCII traffic, which is what the service's
      routes, header names and status lines are made of.
    - A pointer to a [QTcpSocket] is a [nat], [NULL] is [0], and the socket
      objects live in a heap ([sockets]) next to the server's own members.
    - The recorder ([PageRecord]) is an external collaborator: its five
      queries are the fields of a record, its slots are the constructors of
      [Command], and what a slot does to the recorder is a parameter
      ([page_record_exec]). Every invoked slot is also appended to a trace
      ([calls]), so that "invokes" and "invokes nothing" can be stated.
    - Qt's JSON serializer and parser are parameters ([toJson], [fromJson]).
    - A Qt signal is an event: each slot is one transition of the state. *)

From Stdlib Require Import ZArith String Ascii List Bool Lia.
From Stdlib Require Import DecimalString DecimalN DecimalZ.
From stdpp Require Import gmap strings list fin_maps.

Local Open Scope string_scope.
Local Open Scope Z_scope.

(** ** Characters and strings (the parts of QString and QByteArray in use) *)

Module QStr.

Definition CR : ascii := ascii_of_nat 13.
Definition LF : ascii := ascii_of_nat 10.
Definition NUL : ascii := ascii_of_nat 0.
Definition CRLF : string := String CR (String LF "").

(** [s.isEmpty()] *)
Definition isEmpty (s : string) : bool :=
  match s with
  | EmptyString => true
  | String _ _ => false
  end.

(** [s.size()] as the [int] Qt returns. *)
Definition size (s : string) : Z := Z.of_nat (String.length s).

(** [s.startsWith(p)] *)
Fixpoint startsWith (s p : string) {struct p} : bool :=
  match p, s with
  | EmptyString, _ => true
  | String _ _, EmptyString => false
  | String a p', String b s' => if Ascii.eqb a b then startsWith s' p' else false
  end.

Fixpoint drop (n : nat) (s : string) : string :=
  match n, s with
  | O, _ => s
  | S _, EmptyString => EmptyString
  | S k, String _ s' => drop k s'
  end.

Fixpoint take (n : nat) (s : string) : string :=
  match n, s with
  | O, _ => EmptyString
  | S _, EmptyString => EmptyString
  | S k, String c s' => String c (take k s')
  end.

(** [s.mid(pos)]: everything from position [pos] on; empty past the end. *)
Definition mid (s : string) (pos : Z) : string := drop (Z.to_nat pos) s.

(** [s.left(n)]: the first [n] characters; the whole string when [n] is
    negative or not smaller than the size. *)
Definition left (s : string) (n : Z) : string :=
  if n <? 0 then s else take (Z.to_nat n) s.

Fixpoint indexOf_char_from (c : ascii) (s : string) (i : Z) : Z :=
  match s with
  | EmptyString => -1
  | String a s' => if Ascii.eqb a c then i else indexOf_char_from c s' (i + 1)
  end.

(** [s.indexOf(c)]: position of the first [c], or [-1]. *)
Definition indexOf_char (s : string) (c : ascii) : Z := indexOf_char_from c s 0.

Fixpoint indexOf_from (sub s : string) (i : Z) : Z :=
  if startsWith s sub then i
  else match s with
       | EmptyString => -1
       | String _ s' => indexOf_from sub s' (i + 1)
       end.

(** [s.indexOf(sub)]: position of the first occurrence of [sub], or [-1]. *)
Definition indexOf (s sub : string) : Z := indexOf_from sub s 0.

(** [s.contains(sub)] *)
Definition contains (s sub : string) : bool := 0 <=? indexOf s sub.

(** [s.split(sep)] for a non-empty separator, empty parts kept: the scan
    goes left to right, an occurrence of [sep] closes the current part and
    its characters are skipped ([skip] counts those still to pass). The
    result is the current part and the parts after it. *)
Fixpoint split_go (sep : string) (skip : nat) (s : string) : string * list string :=
  match s with
  | EmptyString => (EmptyString, [])
  | String c s' =>
      match skip with
      | S k => split_go sep k s'
      | O =>
          if startsWith s sep
          then let '(t, ts) := split_go sep (String.length sep - 1) s' in
               (EmptyString, t :: ts)
          else let '(t, ts) := split_go sep O s' in
               (String c t, ts)
      end
  end.

Definition split (s sep : string) : list string :=
  let '(t, ts) := split_go sep O s in t :: ts.

(** [QChar::isSpace] on the ASCII range: tab, line feed, vertical tab, form
    feed, carriage return and space. *)
Definition isSpace (c : ascii) : bool :=
  let n := nat_of_ascii c in
  ((9 <=? n)%nat && (n <=? 13)%nat) || (n =? 32)%nat.

Fixpoint trim_left (s : string) : string :=
  match s with
  | EmptyString => EmptyString
  | String c s' => if isSpace c then trim_left s' else s
  end.

Fixpoint trim_right (s : string) : string :=
  match s with
  | EmptyString => EmptyString
  | String c s' =>
      let r := trim_right s' in
      if isSpace c && isEmpty r then EmptyString else String c r
  end.

(** [s.trimmed()]: white space removed from both ends. *)
Definition trimmed (s : string) : string := trim_right (trim_left s).

Definition toLower_char (c : ascii) : ascii :=
  let n := nat_of_ascii c in
  if (65 <=? n)%nat && (n <=? 90)%nat then ascii_of_nat (n + 32) else c.

(** [s.toLower()] on the ASCII range. *)
Fixpoint toLower (s : string) : string :=
  match s with
  | EmptyString => EmptyString
  | String c s' => String (toLower_char c) (toLower s')
  end.

(** [QString(const QByteArray&)]: the bytes up to the first NUL (Qt 4 and
    Qt 5 stop copying there), each byte read as one character. This is
    what Qt does with the bytes below 128; a byte from 128 on is decoded
    as UTF-8 by Qt 5, which the embedding does not follow. *)
Fixpoint fromByteArray (a : string) : string :=
  match a with
  | EmptyString => EmptyString
  | String c a' => if Ascii.eqb c NUL then EmptyString else String c (fromByteArray a')
  end.

(** [QString::number(n)] for an unsigned 64-bit [n]. *)
Definition number (n : N) : string := NilZero.string_of_uint (N.to_uint n).

(** The text [QString::arg(int)] substitutes: decimal, [-] for negatives. *)
Definition arg_int (z : Z) : string := NilZero.string_of_int (Z.to_int z).

End QStr.

Import QStr.

(** ** JSON values, as far as the service builds them *)

#[local] Set Warnings "-register-all".
Inductive QJsonValue : Type :=
| JBool (b : bool)
| JString (s : string)
| JNumber (n : Z)
| JObject (o : gmap string QJsonValue).

Abbreviation QJsonObject := (gmap string QJsonValue).

(** [HTTPServer::CreateSuccessResponse] *)
Definition CreateSuccessResponse (data : QJsonObject) : QJsonObject :=
  let response : QJsonObject := ∅ in
  let response := <["success" := JBool true]> response in
  let response := <["data" := JObject data]> response in
  response.

(** [HTTPServer::CreateErrorResponse] *)
Definition CreateErrorResponse (message : string) : QJsonObject :=
  let response : QJsonObject := ∅ in
  let response := <["success" := JBool false]> response in
  let response := <["error" := JString message]> response in
  response.

(** ** The recorder page *)

(** Modelled from the spec: the class [PageRecord] is declared outside the
    files at hand ([PageRecord.h]); section 6.1 of the specification gives
    its queries: two booleans, the current file name, the current file size
    (an unsigned 64-bit byte count) and the total time (integer
    milliseconds). *)
Record PageRecord : Type := {
  IsRecording : bool;
  IsPaused : bool;
  GetCurrentFileName : string;
  GetCurrentFileSize : N;
  GetTotalTime : Z;
}.

(** The slots of [PageRecord] the service calls. *)
Inductive Command : Type :=
| OnRecordStart
| OnRecordStartPause
| OnRecordPause
| OnRecordCancel (confirm : bool)
| OnRecordSave (confirm : bool).

(** *** Stand-ins for the host and for Qt, used by the examples *)

Module Fake.

(** A recorder that honours the contract of section 6.1. *)
Definition exec (c : Command) (pr : PageRecord) : PageRecord :=
  let upd rec paused :=
    {| IsRecording := rec; IsPaused := paused;
       GetCurrentFileName := GetCurrentFileName pr;
       GetCurrentFileSize := GetCurrentFileSize pr;
       GetTotalTime := GetTotalTime pr |} in
  match c with
  | OnRecordStart => upd true false
  | OnRecordStartPause => upd true (negb (IsPaused pr))
  | OnRecordPause => upd true true
  | OnRecordCancel _ => upd false false
  | OnRecordSave _ => upd false false
  end.

Definition DQUOTE : string := String (ascii_of_nat 34) "".

(** A compact JSON printer (keys in the map's own order, no escaping). *)
Fixpoint toJson_value (v : QJsonValue) : string :=
  match v with
  | JBool b => if b then "true" else "false"
  | JString s => DQUOTE +:+ s +:+ DQUOTE
  | JNumber n => arg_int n
  | JObject o =>
      "{" +:+
      map_fold (fun k v acc =>
                  DQUOTE +:+ k +:+ DQUOTE +:+ ":" +:+ toJson_value v +:+
                  (if isEmpty acc then "" else "," +:+ acc)) "" o
      +:+ "}"
  end.

Definition toJson (o : QJsonObject) : string := toJson_value (JObject o).

(** A parser that accepts the empty object only. *)
Definition fromJson (body : string) : option QJsonObject :=
  if (body =? "{}")%string then Some ∅ else None.

Definition idle : PageRecord :=
  {| IsRecording := false; IsPaused := false; GetCurrentFileName := "";
     GetCurrentFileSize := 0; GetTotalTime := 0 |}.

Definition recording : PageRecord :=
  {| IsRecording := true; IsPaused := false; GetCurrentFileName := "out.mkv";
     GetCurrentFileSize := 1048576; GetTotalTime := 12345 |}.

Definition paused : PageRecord :=
  {| IsRecording := true; IsPaused := true; GetCurrentFileName := "out.mkv";
     GetCurrentFileSize := 1048576; GetTotalTime := 12345 |}.

End Fake.

(** ** Sockets, the listener and the service object *)

Definition NULL : nat := 0%nat.

Record QTcpSocket : Type := {
  isOpen : bool;
  (** bytes received and not yet read by [readAll] *)
  incoming : string;
  (** the byte arrays handed to [write], oldest first *)
  written : list string;
}.

Record QTcpServer : Type := {
  isListening : bool;
  (** accepted by the operating system, not yet taken by
      [nextPendingConnection] *)
  pendingConnections : list nat;
}.

Record HTTPServer : Type := {
  m_server : QTcpServer;
  (** [None] is the null pointer *)
  m_page_record : option PageRecord;
  m_request_buffers : gmap nat string;
  (** the heap of socket objects *)
  sockets : gmap nat QTcpSocket;
  (** the recorder slots invoked so far, oldest first *)
  calls : list Command;
}.

Definition set_server (srv : QTcpServer) (st : HTTPServer) : HTTPServer :=
  {| m_server := srv; m_page_record := m_page_record st;
     m_request_buffers := m_request_buffers st; sockets := sockets st;
     calls := calls st |}.

Definition set_buffers (b : gmap nat string) (st : HTTPServer) : HTTPServer :=
  {| m_server := m_server st; m_page_record := m_page_record st;
     m_request_buffers := b; sockets := sockets st; calls := calls st |}.

Definition set_sockets (h : gmap nat QTcpSocket) (st : HTTPServer) : HTTPServer :=
  {| m_server := m_server st; m_page_record := m_page_record st;
     m_request_buffers := m_request_buffers st; sockets := h;
     calls := calls st |}.

(** [socket->isOpen()]; a pointer to no object counts as not open. *)
Definition socket_isOpen (st : HTTPServer) (socket : nat) : bool :=
  match sockets st !! socket with
  | Some s => isOpen s
  | None => false
  end.

(** What has been written to a socket. *)
Definition socket_written (st : HTTPServer) (socket : nat) : list string :=
  match sockets st !! socket with
  | Some s => written s
  | None => []
  end.

(** [socket->write(data)]: refused on a device that is not open. *)
Definition socket_write (socket : nat) (data : string) (st : HTTPServer) : HTTPServer :=
  match sockets st !! socket with
  | Some s =>
      if isOpen s
      then set_sockets (<[socket := {| isOpen := true; incoming := incoming s;
                                       written := written s ++ [data] |}]> (sockets st)) st
      else st
  | None => st
  end.

(** [socket->close()]. The [disconnected] signal the close gives rise to
    is not part of this transition: its slot is [OnDisconnected], which
    Qt runs from inside [close] when nothing is left to send and from the
    event loop otherwise. *)
Definition socket_close (socket : nat) (st : HTTPServer) : HTTPServer :=
  match sockets st !! socket with
  | Some s =>
      set_sockets (<[socket := {| isOpen := false; incoming := incoming s;
                                  written := written s |}]> (sockets st)) st
  | None => st
  end.

(** [socket->readAll()]: the bytes received so far, which are consumed. *)
Definition socket_readAll (socket : nat) (st : HTTPServer) : string * HTTPServer :=
  match sockets st !! socket with
  | Some s =>
      (incoming s,
       set_sockets (<[socket := {| isOpen := isOpen s; incoming := "";
                                   written := written s |}]> (sockets st)) st)
  | None => ("", st)
  end.

(** *** The network, seen from the service *)

(** A client connects: while the listener listens, Qt creates the socket
    object and queues it. *)
Definition env_connect (socket : nat) (st : HTTPServer) : HTTPServer :=
  if isListening (m_server st) && negb (Nat.eqb socket NULL)
     && negb (bool_decide (is_Some (sockets st !! socket)))
  then set_server {| isListening := true;
                     pendingConnections := pendingConnections (m_server st) ++ [socket] |}
         (set_sockets (<[socket := {| isOpen := true; incoming := ""; written := [] |}]>
                         (sockets st)) st)
  else st.

(** Bytes arrive on an open socket. *)
Definition env_receive (socket : nat) (data : string) (st : HTTPServer) : HTTPServer :=
  match sockets st !! socket with
  | Some s =>
      if isOpen s
      then set_sockets (<[socket := {| isOpen := true; incoming := incoming s +:+ data;
                                       written := written s |}]> (sockets st)) st
      else st
  | None => st
  end.

(** ** Construction, Start and Stop *)

(** The members after a successful construction, for a recorder in state
    [pr]: a listener that does not listen yet and an empty buffer map. *)
Definition HTTPServer_init (pr : PageRecord) : HTTPServer :=
  {| m_server := {| isListening := false; pendingConnections := [] |};
     m_page_record := Some pr;
     m_request_buffers := ∅;
     sockets := ∅;
     calls := [] |}.

(** [HTTPServer::HTTPServer]: throws when [page_record] is null; the
    message of the exception is the left result. *)
Definition HTTPServer_new (page_record : option PageRecord) : string + HTTPServer :=
  match page_record with
  | None => inl "PageRecord is NULL"
  | Some pr => inr (HTTPServer_init pr)
  end.

(** [QTcpServer::listen]: fails on a server that listens already, and
    otherwise succeeds when the operating system grants the port
    ([granted]). *)
Definition QTcpServer_listen (granted : bool) (srv : QTcpServer) : bool * QTcpServer :=
  if isListening srv then (false, srv)
  else if granted
       then (true, {| isListening := true; pendingConnections := pendingConnections srv |})
       else (false, srv).

(** [HTTPServer::Start] *)
Definition Start (granted : bool) (port : Z) (st : HTTPServer) : bool * HTTPServer :=
  let '(ok, srv) := QTcpServer_listen granted (m_server st) in
  if negb ok then (false, st) else (true, set_server srv st).

(** [QTcpServer::close]: the connections still pending are deleted and the
    listening socket is closed. Sockets already handed out by
    [nextPendingConnection] are not touched. *)
Definition QTcpServer_close (st : HTTPServer) : HTTPServer :=
  set_server {| isListening := false; pendingConnections := [] |}
    (set_sockets (foldr delete (sockets st) (pendingConnections (m_server st))) st).

(** [HTTPServer::Stop] *)
Definition Stop (st : HTTPServer) : HTTPServer :=
  if isListening (m_server st) then QTcpServer_close st else st.

(** ** The response writer *)

(** The [switch] of [SendResponse]. *)
Definition statusText (status : Z) : string :=
  if status =? 200 then "OK"
  else if status =? 400 then "Bad Request"
  else if status =? 404 then "Not Found"
  else if status =? 500 then "Internal Server Error"
  else "Unknown".

(** The byte array [SendResponse] assembles, append by append. *)
Definition response_bytes (status : Z) (content_type content : string) : string :=
  let response := "" in
  let response := response +:+ ("HTTP/1.1 " +:+ arg_int status +:+ " " +:+ statusText status +:+ CRLF) in
  let response := response +:+ ("Content-Type: " +:+ fromByteArray content_type +:+ CRLF) in
  let response := response +:+ ("Content-Length: " +:+ arg_int (size content) +:+ CRLF) in
  let response := response +:+ ("Connection: close" +:+ CRLF) in
  let response := response +:+ ("Access-Control-Allow-Origin: *" +:+ CRLF) in
  let response := response +:+ CRLF in
  let response := response +:+ content in
  response.

(** [HTTPServer::SendResponse]: write, flush, close. *)
Definition SendResponse (socket : nat) (status : Z) (content_type content : string)
    (st : HTTPServer) : HTTPServer :=
  socket_close socket (socket_write socket (response_bytes status content_type content) st).

(** ** The service proper *)

Section Service.

(** What a recorder slot does to the recorder: the host application's part. *)
Variable page_record_exec : Command -> PageRecord -> PageRecord.

(** [QJsonDocument(json).toJson()] and [QJsonDocument::fromJson(body)]
    followed by the [isNull]/[isObject] test: Qt's part. *)
Variable toJson : QJsonObject -> string.
Variable fromJson : string -> option QJsonObject.

(** A call of a slot of [m_page_record]. *)
Definition invoke (c : Command) (st : HTTPServer) : HTTPServer :=
  {| m_server := m_server st;
     m_page_record := page_record_exec c <$> m_page_record st;
     m_request_buffers := m_request_buffers st;
     sockets := sockets st;
     calls := calls st ++ [c] |}.

(** [HTTPServer::SendJsonResponse] *)
Definition SendJsonResponse (socket : nat) (status : Z) (json : QJsonObject)
    (st : HTTPServer) : HTTPServer :=
  let content := toJson json in
  SendResponse socket status "application/json" content st.

(** [HTTPServer::HandleAPIStatus] *)
Definition HandleAPIStatus (st : HTTPServer) : QJsonObject * HTTPServer :=
  let data : QJsonObject := ∅ in
  let data :=
    match m_page_record st with
    | Some pr =>
        let data := <["is_recording" := JBool (IsRecording pr)]> data in
        let data := <["is_paused" := JBool (IsPaused pr)]> data in
        let data := <["file_name" := JString (GetCurrentFileName pr)]> data in
        let data := <["file_size" := JString (number (GetCurrentFileSize pr))]> data in
        let data := <["total_time" := JNumber (GetTotalTime pr)]> data in
        data
    | None => data
    end in
  (CreateSuccessResponse data, st).

(** [HTTPServer::HandleAPIStartRecording] *)
Definition HandleAPIStartRecording (st : HTTPServer) : QJsonObject * HTTPServer :=
  match m_page_record st with
  | None => (CreateErrorResponse "No access to recording page", st)
  | Some pr =>
      if IsPaused pr then
        (CreateSuccessResponse {["action" := JString "resumed"]}, invoke OnRecordStartPause st)
      else if negb (IsRecording pr) then
        (CreateSuccessResponse {["action" := JString "started"]}, invoke OnRecordStart st)
      else
        (CreateErrorResponse "Already recording", st)
  end.

(** [HTTPServer::HandleAPIPauseRecording] *)
Definition HandleAPIPauseRecording (st : HTTPServer) : QJsonObject * HTTPServer :=
  match m_page_record st with
  | None => (CreateErrorResponse "No access to recording page", st)
  | Some pr =>
      if IsRecording pr && negb (IsPaused pr) then
        (CreateSuccessResponse ∅, invoke OnRecordPause st)
      else
        (CreateErrorResponse "Not recording or already paused", st)
  end.

(** [HTTPServer::HandleAPICancelRecording] *)
Definition HandleAPICancelRecording (st : HTTPServer) : QJsonObject * HTTPServer :=
  match m_page_record st with
  | None => (CreateErrorResponse "No access to recording page", st)
  | Some pr =>
      if IsRecording pr then
        (CreateSuccessResponse ∅, invoke (OnRecordCancel false) st)
      else
        (CreateErrorResponse "Not recording", st)
  end.

(** [HTTPServer::HandleAPISaveRecording] *)
Definition HandleAPISaveRecording (st : HTTPServer) : QJsonObject * HTTPServer :=
  match m_page_record st with
  | None => (CreateErrorResponse "No access to recording page", st)
  | Some pr =>
      if IsRecording pr then
        (CreateSuccessResponse ∅, invoke (OnRecordSave false) st)
      else
        (CreateErrorResponse "Not recording", st)
  end.

(** [HTTPServer::HandleAPI]; the parsed body [json] is not looked at. *)
Definition HandleAPI (socket : nat) (path : string) (json : QJsonObject)
    (st : HTTPServer) : HTTPServer :=
  let '(response, st) :=
    if (path =? "status")%string then HandleAPIStatus st
    else if (path =? "record/start")%string then HandleAPIStartRecording st
    else if (path =? "record/pause")%string then HandleAPIPauseRecording st
    else if (path =? "record/cancel")%string then HandleAPICancelRecording st
    else if (path =? "record/save")%string then HandleAPISaveRecording st
    else (CreateErrorResponse "Unknown API endpoint", st) in
  SendJsonResponse socket 200 response st.

(** *** The request parser *)

(** [lines = QString(request).split("\r\n")] *)
Definition request_lines (request : string) : list string :=
  split (fromByteArray request) CRLF.

(** [requestLine = lines[0].split(" ")] *)
Definition request_line (request : string) : list string :=
  split (nth 0 (request_lines request) "") " ".

(** The header loop of [HandleRequest], over [lines[1]], [lines[2]], ... *)
Fixpoint parse_headers (lines : list string) (headers : gmap string string)
    : gmap string string :=
  match lines with
  | [] => headers
  | line :: rest =>
      if isEmpty line then headers
      else
        let colonPos := indexOf_char line ":"%char in
        if 0 <? colonPos then
          let key := toLower (trimmed (left line colonPos)) in
          let value := trimmed (mid line (colonPos + 1)) in
          parse_headers rest (<[key := value]> headers)
        else parse_headers rest headers
  end.

(** The header map of a request. *)
Definition request_headers (request : string) : gmap string string :=
  parse_headers (tail (request_lines request)) ∅.

(** The body of a request: the bytes after the first blank line. *)
Definition request_body (request : string) : string :=
  let body := "" in
  let headerEnd := indexOf request (CRLF +:+ CRLF) in
  if (0 <=? headerEnd) && (headerEnd + 4 <? size request)
  then mid request (headerEnd + 4)
  else body.

(** The path the dispatch sees: [requestLine[1]] without a leading slash. *)
Definition normalized_path (request : string) : string :=
  let path := nth 1 (request_line request) "" in
  if startsWith path "/" then mid path 1 else path.

Definition index_content : string :=
  let nl := String LF "" in
  "SimpleScreenRecorder API Server" +:+ nl +:+ nl +:+
  "Available endpoints:" +:+ nl +:+
  "- /start - Start recording" +:+ nl +:+
  "- /pause - Pause recording" +:+ nl +:+
  "- /save - Save recording" +:+ nl +:+
  "- /cancel - Cancel recording" +:+ nl +:+
  "- /status - Get status information" +:+ nl.

(** The dispatch of [HandleRequest] (from "handle the common API endpoints"
    to the final 404), on the normalized path and the body. *)
Definition dispatch (socket : nat) (path body : string) (st : HTTPServer) : HTTPServer :=
  if (path =? "start")%string || (path =? "record/start")%string then
    let '(response, st) := HandleAPIStartRecording st in
    SendJsonResponse socket 200 response st
  else if (path =? "pause")%string || (path =? "record/pause")%string then
    let '(response, st) := HandleAPIPauseRecording st in
    SendJsonResponse socket 200 response st
  else if (path =? "save")%string || (path =? "record/save")%string then
    let '(response, st) := HandleAPISaveRecording st in
    SendJsonResponse socket 200 response st
  else if (path =? "cancel")%string || (path =? "record/cancel")%string then
    let '(response, st) := HandleAPICancelRecording st in
    SendJsonResponse socket 200 response st
  else if (path =? "status")%string || (path =? "record/status")%string then
    let '(response, st) := HandleAPIStatus st in
    SendJsonResponse socket 200 response st
  else if (path =? "api/status")%string || (path =? "api/record/status")%string then
    let '(response, st) := HandleAPIStatus st in
    SendJsonResponse socket 200 response st
  else if (path =? "")%string || (path =? "index.html")%string
          || (path =? "index")%string then
    SendResponse socket 200 "text/plain" index_content st
  else if startsWith path "api/" then
    let apiPath := mid path 4 in
    let jsonRequest : QJsonObject := ∅ in
    let jsonRequest :=
      if negb (isEmpty body)
      then match fromJson body with
           | Some o => o
           | None => jsonRequest
           end
      else jsonRequest in
    HandleAPI socket apiPath jsonRequest st
  else SendResponse socket 404 "text/plain" "Not Found" st.

(** [HTTPServer::HandleRequest]: the guards, the parse, then [dispatch].
    The header map is built and not consulted. Nothing in the body throws
    in this model, so the two [catch] blocks are not entered. *)
Definition HandleRequest (socket : nat) (request : string) (st : HTTPServer) : HTTPServer :=
  if Nat.eqb socket NULL || negb (socket_isOpen st socket) then st
  else if isEmpty request then SendResponse socket 400 "text/plain" "Bad Request" st
  else
    let lines := request_lines request in
    if bool_decide (lines = []) then SendResponse socket 400 "text/plain" "Bad Request" st
    else
      let requestLine := request_line request in
      if (length requestLine <? 3)%nat
      then SendResponse socket 400 "text/plain" "Bad Request" st
      else
        let method := nth 0 requestLine "" in
        let headers := request_headers request in
        let body := request_body request in
        let path := normalized_path request in
        dispatch socket path body st.

(** *** The connection slots *)

(** [HTTPServer::OnNewConnection]; [nextPendingConnection] gives the null
    pointer when nothing is pending. *)
Definition OnNewConnection (st : HTTPServer) : HTTPServer :=
  let '(socket, pending) :=
    match pendingConnections (m_server st) with
    | [] => (NULL, [])
    | s :: rest => (s, rest)
    end in
  let st := set_server {| isListening := isListening (m_server st);
                          pendingConnections := pending |} st in
  set_buffers (<[socket := ""]> (m_request_buffers st)) st.

(** [HTTPServer::OnReadyRead], for the socket that sent the signal. *)
Definition OnReadyRead (socket : nat) (st : HTTPServer) : HTTPServer :=
  if Nat.eqb socket NULL then st
  else if negb (bool_decide (is_Some (m_request_buffers st !! socket))) then st
  else
    let '(data, st) := socket_readAll socket st in
    if isEmpty data then st
    else
      let buffer := default "" (m_request_buffers st !! socket) +:+ data in
      let st := set_buffers (<[socket := buffer]> (m_request_buffers st)) st in
      if contains buffer (CRLF +:+ CRLF) then
        let requestCopy := buffer in
        let st := HandleRequest socket requestCopy st in
        if bool_decide (is_Some (m_request_buffers st !! socket))
        then set_buffers (<[socket := ""]> (m_request_buffers st)) st
        else st
      else st.

(** [HTTPServer::OnDisconnected], for the socket that sent the signal; the
    object handed to [deleteLater] is gone when the slot has returned. *)
Definition OnDisconnected (socket : nat) (st : HTTPServer) : HTTPServer :=
  if Nat.eqb socket NULL then st
  else
    let st :=
      if bool_decide (is_Some (m_request_buffers st !! socket))
      then set_buffers (delete socket (m_request_buffers st)) st
      else st in
    set_sockets (delete socket (sockets st)) st.

(** ** The specification's vocabulary *)

(** The success envelope [{ success: true, data: <object> }]. *)
Definition success_envelope (data : QJsonObject) : QJsonObject :=
  {[ "success" := JBool true; "data" := JObject data ]}.

(** The error envelope [{ success: false, error: <string> }]. *)
Definition error_envelope (message : string) : QJsonObject :=
  {[ "success" := JBool false; "error" := JString message ]}.

(** The fixed paths of the dispatch table. *)
Definition dispatch_set : list string :=
  [""; "index"; "index.html"; "start"; "record/start"; "pause"; "record/pause";
   "save"; "record/save"; "cancel"; "record/cancel"; "status"; "record/status";
   "api/status"; "api/record/status"].

(** The suffixes the legacy [api/] route re-dispatches, with their handlers. *)
Definition legacy_table : list (string * (HTTPServer -> QJsonObject * HTTPServer)) :=
  [("status", HandleAPIStatus);
   ("record/start", HandleAPIStartRecording);
   ("record/pause", HandleAPIPauseRecording);
   ("record/cancel", HandleAPICancelRecording);
   ("record/save", HandleAPISaveRecording)].

Fixpoint legacy_lookup (suffix : string)
    (table : list (string * (HTTPServer -> QJsonObject * HTTPServer)))
    : option (HTTPServer -> QJsonObject * HTTPServer) :=
  match table with
  | [] => None
  | (name, handler) :: rest =>
      if (suffix =? name)%string then Some handler else legacy_lookup suffix rest
  end.

(** A request that gets as far as the dispatch: it arrives on a live socket
    and its request line has the three tokens. *)
Definition reaches_dispatch (socket : nat) (request : string) (st : HTTPServer) : bool :=
  negb (Nat.eqb socket NULL) && socket_isOpen st socket
  && (3 <=? length (request_line request))%nat.

(** [st'] differs from [st] on [socket] by one more write, of a message
    with the given status, content type and body, and by the close. *)
Definition replied (st st' : HTTPServer) (socket : nat) (status : Z)
    (content_type content : string) : Prop :=
  socket_written st' socket
    = (socket_written st socket ++ [response_bytes status content_type content])%list
  /\ socket_isOpen st' socket = false.


(** The characters of a string. *)
Definition chars (s : string) : list ascii := list_ascii_of_string s.

(** The first line of a buffer and the number of tokens on it, on the bytes
    as they arrived. *)
Definition first_line (request : string) : string := nth 0 (split request CRLF) "".
Definition token_count (line : string) : nat := length (split line " ").

(** A decimal numeral read back as a number. *)
Definition read_unsigned (s : string) : option N :=
  option_map N.of_uint (NilZero.uint_of_string s).
Definition read_decimal (s : string) : option Z :=
  option_map Z.of_int (NilZero.int_of_string s).

(** The four paths of the status endpoint. *)
Definition status_paths : list string :=
  ["status"; "record/status"; "api/status"; "api/record/status"].

(** A service right after construction, [Start] and one accepted client
    (socket [1]), for a recorder in state [pr]. *)
Definition connected (pr : PageRecord) : HTTPServer :=
  OnNewConnection (env_connect 1 (Start true 8080 (HTTPServer_init pr)).2).

(** One event of the service's life: a call of [Start] or [Stop], something
    happening on the network, or a slot run by the event loop. *)
Inductive step : HTTPServer -> HTTPServer -> Prop :=
| step_Start granted port st : step st (Start granted port st).2
| step_Stop st : step st (Stop st)
| step_connect socket st : step st (env_connect socket st)
| step_receive socket data st : step st (env_receive socket data st)
| step_OnNewConnection st : step st (OnNewConnection st)
| step_OnReadyRead socket st : step st (OnReadyRead socket st)
| step_OnDisconnected socket st : step st (OnDisconnected socket st).

(** The states a constructed service can be in. *)
Inductive reachable : HTTPServer -> Prop :=
| reachable_new pr st : HTTPServer_new (Some pr) = inr st -> reachable st
| reachable_step st st' : reachable st -> step st st' -> reachable st'.

(** A request line alone, followed by the blank line. *)
Definition bare_request (request_line : string) : string :=
  request_line +:+ CRLF +:+ CRLF.

(** The legacy route as the dispatch table words it: the handler listed for
    the suffix runs and its envelope is sent with status 200; a suffix that
    is not listed gets the error envelope "Unknown API endpoint". *)
Definition legacy_outcome (socket : nat) (suffix : string) (st : HTTPServer) : HTTPServer :=
  match legacy_lookup suffix legacy_table with
  | Some handler => SendJsonResponse socket 200 (handler st).1 (handler st).2
  | None => SendJsonResponse socket 200 (error_envelope "Unknown API endpoint") st
  end.

Definition legacy_suffixes : list string :=
  ["status"; "record/start"; "record/pause"; "record/cancel"; "record/save"].

(** ** Further vocabulary *)

(** The recorder states in which a slot may be called, as the handlers'
    tests have it; saving and cancelling never ask for confirmation. *)
Definition allowed (c : Command) (pr : PageRecord) : bool :=
  match c with
  | OnRecordStart => negb (IsPaused pr) && negb (IsRecording pr)
  | OnRecordStartPause => IsPaused pr
  | OnRecordPause => IsRecording pr && negb (IsPaused pr)
  | OnRecordCancel confirm => IsRecording pr && negb confirm
  | OnRecordSave confirm => IsRecording pr && negb confirm
  end.

(** The blank line that ends the head of a message. *)
Definition terminator : string := CRLF +:+ CRLF.

(** Lines put together with CR LF between them, the inverse of the split
    into lines. *)
Fixpoint join_lines (lines : list string) : string :=
  match lines with
  | [] => ""
  | [l] => l
  | l :: rest => l +:+ CRLF +:+ join_lines rest
  end.

(** A string free of a character. *)
Definition free_of (c : ascii) (s : string) : Prop := ~ In c (chars s).

(** A string of ASCII bytes only (each below 128). On these, and only on
    these, a byte of the buffer is the character [QString] makes of it:
    Qt 5 decodes the bytes as UTF-8. *)
Definition is_ascii (s : string) : bool :=
  forallb (fun c => (nat_of_ascii c <? 128)%nat) (chars s).

(** The target of a request line without its leading slash. *)
Definition strip_slash (target : string) : string :=
  if startsWith target "/" then mid target 1 else target.

(** The paths of the help page. *)
Definition index_paths : list string := [""; "index.html"; "index"].

(** A state in which every socket has been written to at most once, and
    not at all while it is still open. *)
Definition one_reply_each (st : HTTPServer) : Prop :=
  forall socket s,
    sockets st !! socket = Some s ->
    if isOpen s then written s = [] else (length (written s) <= 1)%nat.


(** Two states that differ, in the heap of sockets and in the connection
    table, at most at [socket]. *)
Definition same_elsewhere (socket : nat) (st st' : HTTPServer) : Prop :=
  (forall k, k <> socket -> sockets st' !! k = sockets st !! k)
  /\ (forall k, k <> socket -> m_request_buffers st' !! k = m_request_buffers st !! k).

(** [Stop] with the list of the connections it deletes given from outside;
    [Stop st] is [stop_with (pendingConnections (m_server st)) st]. *)
Definition stop_with (pending : list nat) (st : HTTPServer) : HTTPServer :=
  if isListening (m_server st)
  then set_server {| isListening := false; pendingConnections := [] |}
         (set_sockets (foldr delete (sockets st) pending) st)
  else st.

(** A header entry in normal form: the key is lower-case and trimmed, the
    value is trimmed. *)
Definition normal_header (k v : string) : Prop :=
  toLower k = k /\ trimmed k = k /\ trimmed v = v.

(** A string that does not begin with white space. *)
Definition no_lead (s : string) : Prop :=
  match s with
  | EmptyString => True
  | String c _ => isSpace c = false
  end.

(** [HTTPServer::OnReadyRead] once more, for the other way Qt may deliver
    the [disconnected] signal of the socket that [SendResponse] closes:
    not later from the event loop, as [OnReadyRead] reads it, but at once,
    from inside [close], so that [OnDisconnected] has already run when
    [HandleRequest] returns. The rest of the slot is the same. *)
Definition OnReadyRead_sync (socket : nat) (st : HTTPServer) : HTTPServer :=
  if Nat.eqb socket NULL then st
  else if negb (bool_decide (is_Some (m_request_buffers st !! socket))) then st
  else
    let '(data, st) := socket_readAll socket st in
    if isEmpty data then st
    else
      let buffer := default "" (m_request_buffers st !! socket) +:+ data in
      let st := set_buffers (<[socket := buffer]> (m_request_buffers st)) st in
      if contains buffer (CRLF +:+ CRLF) then
        let requestCopy := buffer in
        let answered := socket_isOpen st socket in
        let st := HandleRequest socket requestCopy st in
        let st := if answered then OnDisconnected socket st else st in
        if bool_decide (is_Some (m_request_buffers st !! socket))
        then set_buffers (<[socket := ""]> (m_request_buffers st)) st
        else st
      else st.

(** ** Properties *)

(** *** Sockets and the response writer *)

Lemma invoke_sockets c st : sockets (invoke c st) = sockets st.
Proof. reflexivity. Qed.

Lemma invoke_calls c st : calls (invoke c st) = (calls st ++ [c])%list.
Proof. reflexivity. Qed.

Lemma SendResponse_replied socket status ct content st :
  socket_isOpen st socket = true ->
  replied st (SendResponse socket status ct content st) socket status ct content.
Proof.
  unfold replied, SendResponse, socket_close, socket_write, socket_isOpen, socket_written.
  destruct (sockets st !! socket) as [s|] eqn:Hs; [|discriminate].
  intros ->. cbn. rewrite !lookup_insert_eq. cbn. rewrite lookup_insert_eq. done.
Qed.

Lemma SendResponse_calls socket status ct content st :
  calls (SendResponse socket status ct content st) = calls st.
Proof.
  unfold SendResponse, socket_close, socket_write.
  destruct (sockets st !! socket) as [s|] eqn:Hs; cbn; [|by rewrite Hs].
  destruct (isOpen s); cbn.
  - by rewrite lookup_insert_eq.
  - by rewrite Hs.
Qed.

Lemma SendResponse_page_record socket status ct content st :
  m_page_record (SendResponse socket status ct content st) = m_page_record st.
Proof.
  unfold SendResponse, socket_close, socket_write.
  destruct (sockets st !! socket) as [s|] eqn:Hs; cbn; [|by rewrite Hs].
  destruct (isOpen s); cbn.
  - by rewrite lookup_insert_eq.
  - by rewrite Hs.
Qed.

Lemma SendResponse_buffers socket status ct content st :
  m_request_buffers (SendResponse socket status ct content st) = m_request_buffers st.
Proof.
  unfold SendResponse, socket_close, socket_write.
  destruct (sockets st !! socket) as [s|] eqn:Hs; cbn; [|by rewrite Hs].
  destruct (isOpen s); cbn.
  - by rewrite lookup_insert_eq.
  - by rewrite Hs.
Qed.

(** A JSON reply after a handler: the handler leaves the sockets alone, so
    the reply is the one write on the socket. *)
Lemma SendJsonResponse_after socket status json st st1 :
  socket_isOpen st socket = true ->
  sockets st1 = sockets st ->
  let st' := SendJsonResponse socket status json st1 in
  replied st st' socket status "application/json" (toJson json)
  /\ calls st' = calls st1 /\ m_page_record st' = m_page_record st1.
Proof.
  intros Hopen Hs st'. subst st'. unfold SendJsonResponse.
  rewrite SendResponse_calls, SendResponse_page_record. split; [|done].
  assert (Hopen1 : socket_isOpen st1 socket = true)
    by (unfold socket_isOpen in *; by rewrite Hs).
  destruct (SendResponse_replied socket status "application/json" (toJson json) st1 Hopen1)
    as [Hw Hc].
  split; [|done]. rewrite Hw. unfold socket_written. by rewrite Hs.
Qed.

(** *** The parse *)

Lemma split_nonempty s sep : split s sep <> [].
Proof. unfold split. by destruct (split_go sep 0 s). Qed.

Lemma reaches_dispatch_spec socket request st :
  reaches_dispatch socket request st = true ->
  socket <> NULL /\ socket_isOpen st socket = true
  /\ (3 <= length (request_line request))%nat /\ isEmpty request = false.
Proof.
  unfold reaches_dispatch. rewrite !andb_true_iff, negb_true_iff.
  intros [[Hn Ho] Hl]. apply Nat.eqb_neq in Hn. apply Nat.leb_le in Hl.
  repeat split; try done.
  destruct request; [|done]. cbn in Hl. lia.
Qed.

Lemma HandleRequest_dispatch socket request st :
  reaches_dispatch socket request st = true ->
  HandleRequest socket request st
  = dispatch socket (normalized_path request) (request_body request) st.
Proof.
  intros H. destruct (reaches_dispatch_spec _ _ _ H) as (Hn & Ho & Hl & He).
  unfold HandleRequest. apply Nat.eqb_neq in Hn. rewrite Hn, Ho, He. cbn [orb negb].
  rewrite bool_decide_eq_false_2 by apply split_nonempty.
  destruct (Nat.ltb_spec (length (request_line request)) 3); [lia|done].
Qed.

(** *** Envelopes *)

Lemma CreateSuccessResponse_envelope data :
  CreateSuccessResponse data = success_envelope data.
Proof.
  unfold CreateSuccessResponse, success_envelope.
  rewrite insert_insert_ne by done. by rewrite insert_empty.
Qed.

Lemma CreateErrorResponse_envelope message :
  CreateErrorResponse message = error_envelope message.
Proof.
  unfold CreateErrorResponse, error_envelope.
  rewrite insert_insert_ne by done. by rewrite insert_empty.
Qed.

Lemma success_envelope_inj d1 d2 :
  success_envelope d1 = success_envelope d2 -> d1 = d2.
Proof.
  intros H. apply (f_equal (fun m => m !! "data")) in H.
  unfold success_envelope in H.
  rewrite !lookup_insert_ne, !lookup_singleton_eq in H by done. congruence.
Qed.

Lemma success_not_error d m : success_envelope d <> error_envelope m.
Proof.
  intros H. apply (f_equal (fun m => m !! "success")) in H.
  unfold success_envelope, error_envelope in H.
  rewrite !lookup_insert_eq in H. congruence.
Qed.

Lemma action_inj (a b : string) :
  ({["action" := JString a]} : QJsonObject) = {["action" := JString b]} -> a = b.
Proof.
  intros H. apply (f_equal (fun m => m !! "action")) in H.
  rewrite !lookup_singleton_eq in H. congruence.
Qed.

Lemma calls_grow (l : list Command) c : l <> (l ++ [c])%list.
Proof.
  intros H. apply (f_equal length) in H. rewrite length_app in H. cbn in H. lia.
Qed.

(** *** The handlers leave the sockets alone *)

Lemma HandleAPIStatus_sockets st : sockets (HandleAPIStatus st).2 = sockets st.
Proof. reflexivity. Qed.

Lemma HandleAPIStartRecording_sockets st :
  sockets (HandleAPIStartRecording st).2 = sockets st.
Proof.
  unfold HandleAPIStartRecording. destruct (m_page_record st) as [pr|]; [|done].
  destruct (IsPaused pr); [done|]. by destruct (IsRecording pr).
Qed.

Lemma HandleAPIPauseRecording_sockets st :
  sockets (HandleAPIPauseRecording st).2 = sockets st.
Proof.
  unfold HandleAPIPauseRecording. destruct (m_page_record st) as [pr|]; [|done].
  by destruct (IsRecording pr), (IsPaused pr).
Qed.

Lemma HandleAPICancelRecording_sockets st :
  sockets (HandleAPICancelRecording st).2 = sockets st.
Proof.
  unfold HandleAPICancelRecording. destruct (m_page_record st) as [pr|]; [|done].
  by destruct (IsRecording pr).
Qed.

Lemma HandleAPISaveRecording_sockets st :
  sockets (HandleAPISaveRecording st).2 = sockets st.
Proof.
  unfold HandleAPISaveRecording. destruct (m_page_record st) as [pr|]; [|done].
  by destruct (IsRecording pr).
Qed.

(** *** Routing of the fixed paths *)

Lemma dispatch_start socket path body st :
  path = "start" \/ path = "record/start" ->
  dispatch socket path body st
  = SendJsonResponse socket 200 (HandleAPIStartRecording st).1 (HandleAPIStartRecording st).2.
Proof. intros [-> | ->]; unfold dispatch; cbn; by destruct (HandleAPIStartRecording st). Qed.

Lemma dispatch_pause socket path body st :
  path = "pause" \/ path = "record/pause" ->
  dispatch socket path body st
  = SendJsonResponse socket 200 (HandleAPIPauseRecording st).1 (HandleAPIPauseRecording st).2.
Proof. intros [-> | ->]; unfold dispatch; cbn; by destruct (HandleAPIPauseRecording st). Qed.

Lemma dispatch_save socket path body st :
  path = "save" \/ path = "record/save" ->
  dispatch socket path body st
  = SendJsonResponse socket 200 (HandleAPISaveRecording st).1 (HandleAPISaveRecording st).2.
Proof. intros [-> | ->]; unfold dispatch; cbn; by destruct (HandleAPISaveRecording st). Qed.

Lemma dispatch_cancel socket path body st :
  path = "cancel" \/ path = "record/cancel" ->
  dispatch socket path body st
  = SendJsonResponse socket 200 (HandleAPICancelRecording st).1 (HandleAPICancelRecording st).2.
Proof. intros [-> | ->]; unfold dispatch; cbn; by destruct (HandleAPICancelRecording st). Qed.

Lemma dispatch_status socket path body st :
  path = "status" \/ path = "record/status" \/ path = "api/status"
  \/ path = "api/record/status" ->
  dispatch socket path body st
  = SendJsonResponse socket 200 (HandleAPIStatus st).1 (HandleAPIStatus st).2.
Proof. intros [-> | [-> | [-> | ->]]]; unfold dispatch; cbn; done. Qed.

(** *** StartOrResume *)

(** C1. A request for [start] or [record/start] that reaches the dispatch
    is answered with one JSON message of status 200. Its envelope is the
    success envelope with action "resumed", and the recorder's pause toggle
    is the one slot invoked, exactly when the recorder reports paused; it
    is the success envelope with action "started", and the start slot is
    the one slot invoked, exactly when the recorder reports neither paused
    nor recording; in the remaining state the envelope is the error
    "Already recording" and no slot is invoked. *)
Theorem start_or_resume socket request st pr :
  reaches_dispatch socket request st = true ->
  normalized_path request = "start" \/ normalized_path request = "record/start" ->
  m_page_record st = Some pr ->
  let st' := HandleRequest socket request st in
  exists envelope,
    replied st st' socket 200 "application/json" (toJson envelope)
    /\ (envelope = success_envelope {["action" := JString "resumed"]}
        /\ calls st' = (calls st ++ [OnRecordStartPause])%list
        <-> IsPaused pr = true)
    /\ (envelope = success_envelope {["action" := JString "started"]}
        /\ calls st' = (calls st ++ [OnRecordStart])%list
        <-> IsPaused pr = false /\ IsRecording pr = false)
    /\ (IsPaused pr = false -> IsRecording pr = true ->
        envelope = error_envelope "Already recording"
        /\ calls st' = calls st /\ m_page_record st' = Some pr).
Proof.
  intros Hr Hp Hpr st'. subst st'.
  rewrite (HandleRequest_dispatch _ _ _ Hr), (dispatch_start _ _ _ _ Hp).
  destruct (reaches_dispatch_spec _ _ _ Hr) as (_ & Ho & _).
  pose proof (SendJsonResponse_after socket 200 (HandleAPIStartRecording st).1 st
                (HandleAPIStartRecording st).2 Ho (HandleAPIStartRecording_sockets st))
    as (Hrep & Hcalls & Hrec).
  exists (HandleAPIStartRecording st).1. split; [exact Hrep|].
  rewrite Hcalls, Hrec. clear Hrep Hcalls Hrec.
  unfold HandleAPIStartRecording. rewrite Hpr.
  rewrite !CreateSuccessResponse_envelope, !CreateErrorResponse_envelope.
  destruct (IsPaused pr) eqn:Hpa; [|destruct (IsRecording pr) eqn:Hre]; cbn.
  - split; [done|]. split; [|done].
    split; [|by intros [[=] _]].
    intros [He _]. apply success_envelope_inj, action_inj in He. discriminate.
  - split; [|split; [|done]].
    + split; [|done]. intros [He _]. symmetry in He. by apply success_not_error in He.
    + split; [|by intros [_ [=]]].
      intros [He _]. symmetry in He. by apply success_not_error in He.
  - split; [|split; [done|by intros _ [=]]].
    split; [|done]. intros [He _].
    apply success_envelope_inj, action_inj in He. discriminate.
Qed.

(** *** Pause, Save and Cancel *)

(** C2. Requests for the pause, save and cancel paths that reach the
    dispatch are each answered with one JSON message of status 200, success
    or error alike. Pause invokes the pause slot exactly when the recorder
    reports recording and not paused, and otherwise answers the error "Not
    recording or already paused" and invokes nothing. Save invokes the save
    slot without confirmation exactly when the recorder reports recording,
    and otherwise answers the error "Not recording"; Cancel does the same
    with the cancel slot. *)
Theorem pause_save_cancel socket request st pr :
  reaches_dispatch socket request st = true ->
  m_page_record st = Some pr ->
  let path := normalized_path request in
  let st' := HandleRequest socket request st in
  (path = "pause" \/ path = "record/pause" ->
   exists envelope,
     replied st st' socket 200 "application/json" (toJson envelope)
     /\ (calls st' = (calls st ++ [OnRecordPause])%list
         <-> IsRecording pr = true /\ IsPaused pr = false)
     /\ (IsRecording pr = true /\ IsPaused pr = false ->
         envelope = success_envelope ∅)
     /\ (~ (IsRecording pr = true /\ IsPaused pr = false) ->
         envelope = error_envelope "Not recording or already paused"
         /\ calls st' = calls st /\ m_page_record st' = Some pr))
  /\ (path = "save" \/ path = "record/save" ->
      exists envelope,
        replied st st' socket 200 "application/json" (toJson envelope)
        /\ (calls st' = (calls st ++ [OnRecordSave false])%list
            <-> IsRecording pr = true)
        /\ (IsRecording pr = true -> envelope = success_envelope ∅)
        /\ (IsRecording pr = false ->
            envelope = error_envelope "Not recording"
            /\ calls st' = calls st /\ m_page_record st' = Some pr))
  /\ (path = "cancel" \/ path = "record/cancel" ->
      exists envelope,
        replied st st' socket 200 "application/json" (toJson envelope)
        /\ (calls st' = (calls st ++ [OnRecordCancel false])%list
            <-> IsRecording pr = true)
        /\ (IsRecording pr = true -> envelope = success_envelope ∅)
        /\ (IsRecording pr = false ->
            envelope = error_envelope "Not recording"
            /\ calls st' = calls st /\ m_page_record st' = Some pr)).
Proof.
  intros Hr Hpr path st'. subst path st'.
  rewrite (HandleRequest_dispatch _ _ _ Hr).
  destruct (reaches_dispatch_spec _ _ _ Hr) as (_ & Ho & _).
  split; [|split]; intros Hp.
  - rewrite (dispatch_pause _ _ _ _ Hp).
    pose proof (SendJsonResponse_after socket 200 (HandleAPIPauseRecording st).1 st
                  (HandleAPIPauseRecording st).2 Ho (HandleAPIPauseRecording_sockets st))
      as (Hrep & Hcalls & Hrec).
    exists (HandleAPIPauseRecording st).1. split; [exact Hrep|].
    rewrite Hcalls, Hrec. clear Hrep Hcalls Hrec.
    unfold HandleAPIPauseRecording. rewrite Hpr.
    rewrite CreateSuccessResponse_envelope, CreateErrorResponse_envelope.
    destruct (IsRecording pr), (IsPaused pr); cbn;
      (split; [split; [intros He; try done; by apply calls_grow in He
                      | intros [? ?]; done]
              | split; [intros [? ?]; done | intros Hn; try done; by destruct Hn]]).
  - rewrite (dispatch_save _ _ _ _ Hp).
    pose proof (SendJsonResponse_after socket 200 (HandleAPISaveRecording st).1 st
                  (HandleAPISaveRecording st).2 Ho (HandleAPISaveRecording_sockets st))
      as (Hrep & Hcalls & Hrec).
    exists (HandleAPISaveRecording st).1. split; [exact Hrep|].
    rewrite Hcalls, Hrec. clear Hrep Hcalls Hrec.
    unfold HandleAPISaveRecording. rewrite Hpr.
    rewrite CreateSuccessResponse_envelope, CreateErrorResponse_envelope.
    destruct (IsRecording pr); cbn;
      (split; [split; [intros He; try done; by apply calls_grow in He | done]
              | split; done]).
  - rewrite (dispatch_cancel _ _ _ _ Hp).
    pose proof (SendJsonResponse_after socket 200 (HandleAPICancelRecording st).1 st
                  (HandleAPICancelRecording st).2 Ho (HandleAPICancelRecording_sockets st))
      as (Hrep & Hcalls & Hrec).
    exists (HandleAPICancelRecording st).1. split; [exact Hrep|].
    rewrite Hcalls, Hrec. clear Hrep Hcalls Hrec.
    unfold HandleAPICancelRecording. rewrite Hpr.
    rewrite CreateSuccessResponse_envelope, CreateErrorResponse_envelope.
    destruct (IsRecording pr); cbn;
      (split; [split; [intros He; try done; by apply calls_grow in He | done]
              | split; done]).
Qed.

(** *** Decimal numerals *)

Lemma number_read n : read_unsigned (number n) = Some n.
Proof.
  unfold read_unsigned, number.
  rewrite NilZero.usu.
  - cbn. by rewrite DecimalN.Unsigned.of_to.
  - destruct n; [done|]. apply DecimalPos.Unsigned.to_uint_nonnil.
Qed.

Lemma arg_int_read z : read_decimal (arg_int z) = Some z.
Proof.
  unfold read_decimal, arg_int.
  rewrite NilZero.isi.
  - cbn. by rewrite DecimalZ.of_to.
  - destruct z; cbn; [done| |done].
    intros [= H]. by apply DecimalPos.Unsigned.to_uint_nonnil in H.
  - destruct z; cbn; [done|done|].
    intros [= H]. by apply DecimalPos.Unsigned.to_uint_nonnil in H.
Qed.

(** *** Status *)

Lemma status_data pr :
  (<["total_time" := JNumber (GetTotalTime pr)]>
    (<["file_size" := JString (number (GetCurrentFileSize pr))]>
      (<["file_name" := JString (GetCurrentFileName pr)]>
        (<["is_paused" := JBool (IsPaused pr)]>
          (<["is_recording" := JBool (IsRecording pr)]> ∅)))) : QJsonObject)
  = {[ "is_recording" := JBool (IsRecording pr);
       "is_paused" := JBool (IsPaused pr);
       "file_name" := JString (GetCurrentFileName pr);
       "file_size" := JString (number (GetCurrentFileSize pr));
       "total_time" := JNumber (GetTotalTime pr) ]}.
Proof.
  apply map_eq. intros k.
  destruct (decide (k = "total_time")) as [->|?]; [by simplify_map_eq|].
  destruct (decide (k = "file_size")) as [->|?]; [by simplify_map_eq|].
  destruct (decide (k = "file_name")) as [->|?]; [by simplify_map_eq|].
  destruct (decide (k = "is_paused")) as [->|?]; [by simplify_map_eq|].
  destruct (decide (k = "is_recording")) as [->|?]; [by simplify_map_eq|].
  by simplify_map_eq.
Qed.

Lemma HandleAPIStatus_result st pr :
  m_page_record st = Some pr ->
  HandleAPIStatus st
  = (success_envelope
       {[ "is_recording" := JBool (IsRecording pr);
          "is_paused" := JBool (IsPaused pr);
          "file_name" := JString (GetCurrentFileName pr);
          "file_size" := JString (number (GetCurrentFileSize pr));
          "total_time" := JNumber (GetTotalTime pr) ]}, st).
Proof.
  intros Hpr. unfold HandleAPIStatus. rewrite Hpr.
  by rewrite CreateSuccessResponse_envelope, status_data.
Qed.

(** C3. A request for one of the four status paths that reaches the
    dispatch is answered with one JSON message of status 200 whose envelope
    is the success envelope, with a data object of exactly the five fields
    [is_recording] and [is_paused] (booleans), [file_name] (string),
    [file_size] (the decimal numeral of the file size, as a string) and
    [total_time] (number); no recorder slot is invoked and the recorder is
    left as it was. *)
Theorem status_snapshot socket request st pr :
  reaches_dispatch socket request st = true ->
  In (normalized_path request) status_paths ->
  m_page_record st = Some pr ->
  let st' := HandleRequest socket request st in
  replied st st' socket 200 "application/json"
    (toJson (success_envelope
       {[ "is_recording" := JBool (IsRecording pr);
          "is_paused" := JBool (IsPaused pr);
          "file_name" := JString (GetCurrentFileName pr);
          "file_size" := JString (number (GetCurrentFileSize pr));
          "total_time" := JNumber (GetTotalTime pr) ]}))
  /\ read_unsigned (number (GetCurrentFileSize pr)) = Some (GetCurrentFileSize pr)
  /\ calls st' = calls st
  /\ m_page_record st' = Some pr.
Proof.
  intros Hr Hp Hpr st'. subst st'.
  rewrite (HandleRequest_dispatch _ _ _ Hr).
  destruct (reaches_dispatch_spec _ _ _ Hr) as (_ & Ho & _).
  rewrite dispatch_status by (cbn in Hp; intuition congruence).
  rewrite (HandleAPIStatus_result st pr Hpr). cbn [fst snd].
  destruct (SendJsonResponse_after socket 200
              (success_envelope
                 {[ "is_recording" := JBool (IsRecording pr);
                    "is_paused" := JBool (IsPaused pr);
                    "file_name" := JString (GetCurrentFileName pr);
                    "file_size" := JString (number (GetCurrentFileSize pr));
                    "total_time" := JNumber (GetTotalTime pr) ]})
              st st Ho eq_refl) as (Hrep & Hcalls & Hrec).
  rewrite Hcalls, Hrec, number_read. done.
Qed.

(** *** Stop *)

Lemma lookup_foldr_delete {A} (m : gmap nat A) (l : list nat) (k : nat) :
  ~ In k l -> foldr delete m l !! k = m !! k.
Proof.
  induction l as [|x l IH]; cbn; [done|].
  intros Hk. rewrite lookup_delete_ne by tauto. apply IH. tauto.
Qed.

Lemma foldr_delete_lookup_In {A} (m : gmap nat A) (l : list nat) (k : nat) :
  In k l -> foldr delete m l !! k = None.
Proof.
  induction l as [|x l IH]; cbn; [done|].
  intros [->|Hk]; [by rewrite lookup_delete_eq|].
  destruct (decide (x = k)) as [->|Hne]; [by rewrite lookup_delete_eq|].
  rewrite lookup_delete_ne by done. by apply IH.
Qed.

(** C4, as the code has it. [Stop] closes the listener, and with it the
    connections that were still pending: on a listening service no
    connection is pending afterwards and the socket of each one that was
    is gone. It neither closes an accepted connection nor releases an
    entry of the connection table: the table, every socket that was not
    pending, the recorder and the trace are as before. On a service that
    is not listening [Stop] changes nothing. *)
Theorem stop_closes_listener_only st :
  let st' := Stop st in
  isListening (m_server st') = false
  /\ (isListening (m_server st) = true ->
      pendingConnections (m_server st') = []
      /\ forall socket, In socket (pendingConnections (m_server st)) ->
                        sockets st' !! socket = None)
  /\ m_request_buffers st' = m_request_buffers st
  /\ (forall socket, ~ In socket (pendingConnections (m_server st)) ->
      sockets st' !! socket = sockets st !! socket)
  /\ calls st' = calls st
  /\ m_page_record st' = m_page_record st
  /\ (isListening (m_server st) = false -> st' = st).
Proof.
  unfold Stop. destruct (isListening (m_server st)) eqn:Hl; cbn.
  - split; [done|]. split.
    { intros _. split; [done|]. intros socket Hs. by apply foldr_delete_lookup_In. }
    repeat split; try done. intros socket Hs. by apply lookup_foldr_delete.
  - split; [done|]. split; [done|]. by repeat split.
Qed.

(** *** Paths outside the table *)

Lemma eqb_not_in (path : string) (l : list string) x :
  ~ In path l -> In x l -> (path =? x)%string = false.
Proof. intros Hn Hx. apply String.eqb_neq. intros ->. done. Qed.

(** C5. A request that reaches the dispatch with a normalized path that is
    neither one of the fixed paths nor starts with [api/] is answered with
    one message of status 404 whose body is "Not Found"; no recorder slot
    is invoked. *)
Theorem unknown_path_not_found socket request st :
  reaches_dispatch socket request st = true ->
  ~ In (normalized_path request) dispatch_set ->
  startsWith (normalized_path request) "api/" = false ->
  let st' := HandleRequest socket request st in
  replied st st' socket 404 "text/plain" "Not Found"
  /\ calls st' = calls st
  /\ m_page_record st' = m_page_record st.
Proof.
  intros Hr Hn Hs st'. subst st'.
  rewrite (HandleRequest_dispatch _ _ _ Hr).
  destruct (reaches_dispatch_spec _ _ _ Hr) as (_ & Ho & _).
  pose proof (eqb_not_in _ _ "" Hn) as E0.
  pose proof (fun x => eqb_not_in _ _ x Hn) as E.
  unfold dispatch.
  rewrite (E "start"), (E "record/start"), (E "pause"), (E "record/pause"),
    (E "save"), (E "record/save"), (E "cancel"), (E "record/cancel"),
    (E "status"), (E "record/status"), (E "api/status"), (E "api/record/status"),
    (E ""), (E "index.html"), (E "index"), Hs by (cbn; tauto).
  cbn [orb]. rewrite SendResponse_calls, SendResponse_page_record.
  split; [|done]. by apply SendResponse_replied.
Qed.

(** *** The legacy route *)

Lemma HandleAPI_legacy socket suffix json st :
  HandleAPI socket suffix json st = legacy_outcome socket suffix st.
Proof.
  unfold HandleAPI, legacy_outcome, legacy_table, legacy_lookup.
  destruct (suffix =? "status")%string; [by destruct (HandleAPIStatus st)|].
  destruct (suffix =? "record/start")%string; [by destruct (HandleAPIStartRecording st)|].
  destruct (suffix =? "record/pause")%string; [by destruct (HandleAPIPauseRecording st)|].
  destruct (suffix =? "record/cancel")%string; [by destruct (HandleAPICancelRecording st)|].
  destruct (suffix =? "record/save")%string; [by destruct (HandleAPISaveRecording st)|].
  by rewrite CreateErrorResponse_envelope.
Qed.

Lemma legacy_lookup_none suffix :
  legacy_lookup suffix legacy_table = None <-> ~ In suffix legacy_suffixes.
Proof.
  unfold legacy_table, legacy_suffixes. cbn.
  repeat match goal with
         | |- context [String.eqb suffix ?x] =>
             destruct (String.eqb_spec suffix x) as [->|?];
             [split; [done|intros H; exfalso; apply H; auto 10]|]
         end.
  split; [|done]. intros _ H. repeat (destruct H as [H|H]; [congruence|]). done.
Qed.

Lemma startsWith_app s p : startsWith (p +:+ s) p = true.
Proof.
  induction p as [|c p IH]; simpl; [done|].
  by rewrite Ascii.eqb_refl.
Qed.

(** C7. A request that reaches the dispatch with a normalized path [api/]
    followed by a suffix, and that matched none of the fixed paths, is
    handed to the legacy API with that suffix: the handler listed for the
    suffix (status, record/start, record/pause, record/cancel, record/save)
    runs and its envelope is sent as JSON with status 200. For every other
    suffix the answer is one JSON message of status 200 carrying the error
    envelope "Unknown API endpoint", and no recorder slot is invoked. *)
Theorem legacy_api_route socket request st suffix :
  reaches_dispatch socket request st = true ->
  normalized_path request = "api/" +:+ suffix ->
  ~ In (normalized_path request) dispatch_set ->
  let st' := HandleRequest socket request st in
  st' = legacy_outcome socket suffix st
  /\ (forall json, HandleAPI socket suffix json st = legacy_outcome socket suffix st)
  /\ (~ In suffix legacy_suffixes ->
      replied st st' socket 200 "application/json"
        (toJson (error_envelope "Unknown API endpoint"))
      /\ calls st' = calls st
      /\ m_page_record st' = m_page_record st).
Proof.
  intros Hr Hp Hn st'.
  assert (Hst : st' = legacy_outcome socket suffix st).
  { subst st'. rewrite (HandleRequest_dispatch _ _ _ Hr).
    pose proof (fun x => eqb_not_in _ _ x Hn) as E.
    unfold dispatch.
    rewrite (E "start"), (E "record/start"), (E "pause"), (E "record/pause"),
      (E "save"), (E "record/save"), (E "cancel"), (E "record/cancel"),
      (E "status"), (E "record/status"), (E "api/status"), (E "api/record/status"),
      (E ""), (E "index.html"), (E "index") by (cbn; tauto).
    cbn [orb]. rewrite Hp, startsWith_app.
    change (mid ("api/" +:+ suffix) 4) with suffix.
    apply HandleAPI_legacy. }
  split; [exact Hst|]. split; [intros json; apply HandleAPI_legacy|].
  intros Hu. rewrite Hst. unfold legacy_outcome.
  apply legacy_lookup_none in Hu. rewrite Hu.
  destruct (reaches_dispatch_spec _ _ _ Hr) as (_ & Ho & _).
  by apply SendJsonResponse_after.
Qed.

(** *** The recorder pointer is never null *)

Lemma invoke_page_record c st :
  is_Some (m_page_record st) -> is_Some (m_page_record (invoke c st)).
Proof. intros [pr Hpr]. unfold invoke. cbn. rewrite Hpr. by eexists. Qed.

Lemma SendJsonResponse_page_record socket status json st :
  m_page_record (SendJsonResponse socket status json st) = m_page_record st.
Proof. apply SendResponse_page_record. Qed.

Lemma HandleAPIStartRecording_page_record st :
  is_Some (m_page_record st) -> is_Some (m_page_record (HandleAPIStartRecording st).2).
Proof.
  intros H. unfold HandleAPIStartRecording.
  destruct (m_page_record st) as [pr|] eqn:Hpr; [|done].
  destruct (IsPaused pr); [|destruct (IsRecording pr)]; cbn [snd negb];
    try apply invoke_page_record; by rewrite Hpr.
Qed.

Lemma HandleAPIPauseRecording_page_record st :
  is_Some (m_page_record st) -> is_Some (m_page_record (HandleAPIPauseRecording st).2).
Proof.
  intros H. unfold HandleAPIPauseRecording.
  destruct (m_page_record st) as [pr|] eqn:Hpr; [|done].
  destruct (IsRecording pr && negb (IsPaused pr)); cbn [snd];
    try apply invoke_page_record; by rewrite Hpr.
Qed.

Lemma HandleAPICancelRecording_page_record st :
  is_Some (m_page_record st) -> is_Some (m_page_record (HandleAPICancelRecording st).2).
Proof.
  intros H. unfold HandleAPICancelRecording.
  destruct (m_page_record st) as [pr|] eqn:Hpr; [|done].
  destruct (IsRecording pr); cbn [snd]; try apply invoke_page_record; by rewrite Hpr.
Qed.

Lemma HandleAPISaveRecording_page_record st :
  is_Some (m_page_record st) -> is_Some (m_page_record (HandleAPISaveRecording st).2).
Proof.
  intros H. unfold HandleAPISaveRecording.
  destruct (m_page_record st) as [pr|] eqn:Hpr; [|done].
  destruct (IsRecording pr); cbn [snd]; try apply invoke_page_record; by rewrite Hpr.
Qed.

Lemma legacy_outcome_page_record socket suffix st :
  is_Some (m_page_record st) -> is_Some (m_page_record (legacy_outcome socket suffix st)).
Proof.
  intros H. unfold legacy_outcome, legacy_table, legacy_lookup.
  repeat match goal with
         | |- context [String.eqb suffix ?x] => destruct (String.eqb suffix x)
         end;
    rewrite SendJsonResponse_page_record;
    auto using HandleAPIStartRecording_page_record, HandleAPIPauseRecording_page_record,
      HandleAPICancelRecording_page_record, HandleAPISaveRecording_page_record.
Qed.

Lemma dispatch_page_record socket path body st :
  is_Some (m_page_record st) -> is_Some (m_page_record (dispatch socket path body st)).
Proof.
  intros H. unfold dispatch.
  repeat match goal with
         | |- context [if ?b || ?c then _ else _] => destruct (b || c)
         end.
  - rewrite (surjective_pairing (HandleAPIStartRecording st)), SendJsonResponse_page_record.
    by apply HandleAPIStartRecording_page_record.
  - rewrite (surjective_pairing (HandleAPIPauseRecording st)), SendJsonResponse_page_record.
    by apply HandleAPIPauseRecording_page_record.
  - rewrite (surjective_pairing (HandleAPISaveRecording st)), SendJsonResponse_page_record.
    by apply HandleAPISaveRecording_page_record.
  - rewrite (surjective_pairing (HandleAPICancelRecording st)), SendJsonResponse_page_record.
    by apply HandleAPICancelRecording_page_record.
  - unfold HandleAPIStatus. by rewrite SendJsonResponse_page_record.
  - unfold HandleAPIStatus. by rewrite SendJsonResponse_page_record.
  - by rewrite SendResponse_page_record.
  - destruct (startsWith path "api/").
    + rewrite HandleAPI_legacy. by apply legacy_outcome_page_record.
    + by rewrite SendResponse_page_record.
Qed.

Lemma HandleRequest_page_record socket request st :
  is_Some (m_page_record st) -> is_Some (m_page_record (HandleRequest socket request st)).
Proof.
  intros H. unfold HandleRequest.
  destruct (_ || _); [done|].
  destruct (isEmpty request); [by rewrite SendResponse_page_record|].
  destruct (bool_decide _); [by rewrite SendResponse_page_record|].
  destruct (_ <? _)%nat; [by rewrite SendResponse_page_record|].
  by apply dispatch_page_record.
Qed.

Lemma socket_readAll_page_record socket st :
  m_page_record (socket_readAll socket st).2 = m_page_record st.
Proof. unfold socket_readAll. by destruct (sockets st !! socket). Qed.

Lemma OnReadyRead_page_record socket st :
  is_Some (m_page_record st) -> is_Some (m_page_record (OnReadyRead socket st)).
Proof.
  intros H. unfold OnReadyRead.
  destruct (Nat.eqb socket NULL); [done|].
  destruct (negb _); [done|].
  pose proof (socket_readAll_page_record socket st) as Hr.
  destruct (socket_readAll socket st) as [data st1]. cbn [snd] in Hr.
  destruct (isEmpty data); [by rewrite Hr|].
  destruct (contains _ _); [|by cbn; rewrite Hr].
  match goal with
  | |- context [HandleRequest socket ?r ?s] =>
      assert (Hh : is_Some (m_page_record (HandleRequest socket r s)))
        by (apply HandleRequest_page_record; cbn; by rewrite Hr);
      destruct (bool_decide (is_Some (m_request_buffers (HandleRequest socket r s) !! socket)))
  end; done.
Qed.

(** Every step keeps the pointer set in the constructor. *)
Lemma step_page_record st st' :
  step st st' -> is_Some (m_page_record st) -> is_Some (m_page_record st').
Proof.
  intros Hstep H. destruct Hstep.
  - unfold Start. destruct (QTcpServer_listen _ _) as [[] srv]; done.
  - unfold Stop. by destruct (isListening _).
  - unfold env_connect. by destruct (_ && _).
  - unfold env_receive. destruct (sockets st !! socket) as [s|]; [|done].
    by destruct (isOpen s).
  - unfold OnNewConnection. by destruct (pendingConnections _).
  - by apply OnReadyRead_page_record.
  - unfold OnDisconnected. destruct (Nat.eqb _ _); [done|]. by destruct (bool_decide _).
Qed.

(** In every state a constructed service can reach, the handlers find a
    recorder to talk to. *)
Lemma reachable_page_record st : reachable st -> is_Some (m_page_record st).
Proof.
  induction 1 as [pr st Hnew | st st' _ IH Hstep].
  - injection Hnew as <-. by eexists.
  - by apply (step_page_record st st').
Qed.

Lemma connected_reachable pr : reachable (connected pr).
Proof.
  unfold connected.
  eapply reachable_step; [|apply step_OnNewConnection].
  eapply reachable_step; [|apply step_connect].
  eapply reachable_step; [|apply step_Start].
  by eapply reachable_new.
Qed.

(** *** Request lines with fewer than three tokens *)

Lemma startsWith_nil s : startsWith s "" = true.
Proof. reflexivity. Qed.

Lemma startsWith_cons c s d p :
  startsWith (String c s) (String d p) = Ascii.eqb d c && startsWith s p.
Proof. cbn [startsWith]. by destruct (Ascii.eqb d c). Qed.

Lemma split_go_space c s :
  split_go " " 0 (String c s)
  = if Ascii.eqb " " c
    then ("", (split_go " " 0 s).1 :: (split_go " " 0 s).2)
    else (String c (split_go " " 0 s).1, (split_go " " 0 s).2).
Proof.
  cbn [split_go]. rewrite startsWith_cons, startsWith_nil, andb_true_r.
  change (String.length " " - 1)%nat with 0%nat.
  by destruct (split_go " " 0 s), (Ascii.eqb " " c).
Qed.

Lemma token_count_eq line : token_count line = S (length (split_go " " 0 line).2).
Proof. unfold token_count, split. by destruct (split_go " " 0 line). Qed.

(** A line has at least as many tokens as any of its prefixes. *)
Lemma token_count_prefix a : forall b,
  startsWith b a = true -> (token_count a <= token_count b)%nat.
Proof.
  setoid_rewrite token_count_eq.
  induction a as [|c a IH]; intros b Hb; [cbn; lia|].
  destruct b as [|d b]; [discriminate|].
  rewrite startsWith_cons in Hb. apply andb_true_iff in Hb as [Hc Hb].
  apply Ascii.eqb_eq in Hc as ->. specialize (IH b Hb).
  rewrite !split_go_space. destruct (Ascii.eqb " " d); cbn [snd length]; lia.
Qed.

Lemma first_line_eq s : first_line s = (split_go CRLF 0 s).1.
Proof. unfold first_line, split. by destruct (split_go CRLF 0 s). Qed.

Lemma split_go_CRLF c s :
  split_go CRLF 0 (String c s)
  = if startsWith (String c s) CRLF
    then ("", (split_go CRLF 1 s).1 :: (split_go CRLF 1 s).2)
    else (String c (split_go CRLF 0 s).1, (split_go CRLF 0 s).2).
Proof.
  cbn [split_go]. change (String.length CRLF - 1)%nat with 1%nat.
  by destruct (split_go CRLF 1 s), (split_go CRLF 0 s), (startsWith (String c s) CRLF).
Qed.

Lemma startsWith_CRLF_fromByteArray c s :
  startsWith (String c (fromByteArray s)) CRLF = startsWith (String c s) CRLF.
Proof.
  unfold CRLF. rewrite !startsWith_cons. destruct (Ascii.eqb CR c); [|done]. cbn [andb].
  destruct s as [|d s]; [done|]. cbn [fromByteArray].
  destruct (Ascii.eqb_spec d NUL) as [->|Hd]; [done|].
  by rewrite !startsWith_cons.
Qed.

(** Cutting a buffer at its first NUL leaves a prefix of its first line. *)
Lemma first_line_fromByteArray s :
  startsWith (first_line s) (first_line (fromByteArray s)) = true.
Proof.
  rewrite !first_line_eq.
  induction s as [|c s IH]; [done|].
  cbn [fromByteArray]. destruct (Ascii.eqb c NUL); [done|].
  rewrite !split_go_CRLF, startsWith_CRLF_fromByteArray.
  destruct (startsWith (String c s) CRLF); [done|].
  cbn [fst]. by rewrite startsWith_cons, Ascii.eqb_refl.
Qed.

Lemma request_line_tokens request :
  (length (request_line request) <= token_count (first_line request))%nat.
Proof.
  unfold request_line, request_lines.
  change (length (split ?l " ")) with (token_count l).
  apply token_count_prefix, first_line_fromByteArray.
Qed.

(** C6. A buffer whose first line (up to the first CR LF) has fewer than
    three tokens between single spaces, handled on a live socket, gets
    exactly one message, of status 400 with the body "Bad Request"; it does
    not reach the dispatch and no recorder slot is invoked. *)
Theorem malformed_request_line socket request st :
  socket <> NULL ->
  socket_isOpen st socket = true ->
  (token_count (first_line request) < 3)%nat ->
  let st' := HandleRequest socket request st in
  replied st st' socket 400 "text/plain" "Bad Request"
  /\ st' = SendResponse socket 400 "text/plain" "Bad Request" st
  /\ calls st' = calls st
  /\ m_page_record st' = m_page_record st.
Proof.
  intros Hn Ho Ht st'.
  assert (Hst : st' = SendResponse socket 400 "text/plain" "Bad Request" st).
  { subst st'. unfold HandleRequest. apply Nat.eqb_neq in Hn. rewrite Hn, Ho. cbn [orb negb].
    destruct (isEmpty request); [done|].
    destruct (bool_decide _); [done|].
    pose proof (request_line_tokens request).
    destruct (Nat.ltb_spec (length (request_line request)) 3); [done|lia]. }
  rewrite Hst, SendResponse_calls, SendResponse_page_record.
  split; [|done]. by apply SendResponse_replied.
Qed.

(** *** The response writer *)

Lemma statusText_other status :
  status <> 200 -> status <> 400 -> status <> 404 -> status <> 500 ->
  statusText status = "Unknown".
Proof.
  intros H1 H2 H3 H4. unfold statusText.
  by rewrite !(proj2 (Z.eqb_neq _ _)) by done.
Qed.

Lemma indexOf_from_eq sub s i :
  indexOf_from sub s i
  = if startsWith s sub then i
    else match s with
         | EmptyString => -1
         | String _ s' => indexOf_from sub s' (i + 1)
         end.
Proof. by destruct s. Qed.

Lemma indexOf_from_found sub b a : forall i,
  0 <= i -> 0 <= indexOf_from sub (a +:+ sub +:+ b) i.
Proof.
  induction a as [|c a IH]; intros i Hi; rewrite indexOf_from_eq.
  - change ("" +:+ sub +:+ b) with (sub +:+ b). by rewrite startsWith_app.
  - destruct (startsWith _ sub); [done|].
    change (String c a +:+ sub +:+ b) with (String c (a +:+ sub +:+ b)).
    apply IH. lia.
Qed.

Lemma contains_app a sub b : contains (a +:+ sub +:+ b) sub = true.
Proof. unfold contains, indexOf. apply Z.leb_le, indexOf_from_found. lia. Qed.

Lemma append_cons c (a b : string) : String c a +:+ b = String c (a +:+ b).
Proof. reflexivity. Qed.

Lemma append_assoc (a b c : string) : (a +:+ b) +:+ c = a +:+ b +:+ c.
Proof. induction a as [|x a IH]; [done|]. by rewrite !append_cons, IH. Qed.

(** C8. Whatever the status code, the content type and the body, the
    message the response writer assembles (and writes, once, to an open
    socket) is the status line, the
    Content-Type line, the Content-Length line, "Connection: close",
    "Access-Control-Allow-Origin: *", one empty line and the body, each
    line ended by CR LF. It contains the two fixed headers; the numeral of
    Content-Length reads back as the number of bytes of the body; the
    phrase of the status line is "OK" for 200, "Bad Request" for 400, "Not
    Found" for 404, "Internal Server Error" for 500 and "Unknown" for every
    other code. *)
Theorem response_layout status content_type content :
  let response := response_bytes status content_type content in
  (exists phrase length_numeral,
     response
     = "HTTP/1.1 " +:+ arg_int status +:+ " " +:+ phrase +:+ CRLF
       +:+ "Content-Type: " +:+ fromByteArray content_type +:+ CRLF
       +:+ "Content-Length: " +:+ length_numeral +:+ CRLF
       +:+ "Connection: close" +:+ CRLF
       +:+ "Access-Control-Allow-Origin: *" +:+ CRLF
       +:+ CRLF
       +:+ content
     /\ read_decimal length_numeral = Some (Z.of_nat (String.length content))
     /\ (status = 200 -> phrase = "OK")
     /\ (status = 400 -> phrase = "Bad Request")
     /\ (status = 404 -> phrase = "Not Found")
     /\ (status = 500 -> phrase = "Internal Server Error")
     /\ (status <> 200 -> status <> 400 -> status <> 404 -> status <> 500 ->
         phrase = "Unknown"))
  /\ contains response ("Connection: close" +:+ CRLF) = true
  /\ contains response ("Access-Control-Allow-Origin: *" +:+ CRLF) = true
  /\ read_decimal (arg_int status) = Some status
  /\ (forall socket st,
        socket_isOpen st socket = true ->
        socket_written (SendResponse socket status content_type content st) socket
        = (socket_written st socket ++ [response])%list).
Proof.
  intros response.
  assert (Hlayout : response
     = "HTTP/1.1 " +:+ arg_int status +:+ " " +:+ statusText status +:+ CRLF
       +:+ "Content-Type: " +:+ fromByteArray content_type +:+ CRLF
       +:+ "Content-Length: " +:+ arg_int (size content) +:+ CRLF
       +:+ "Connection: close" +:+ CRLF
       +:+ "Access-Control-Allow-Origin: *" +:+ CRLF
       +:+ CRLF
       +:+ content).
  { subst response. unfold response_bytes. cbn zeta.
    change ("" +:+ ?x) with x. by rewrite !append_assoc. }
  split; [|split; [|split; [|split]]].
  - exists (statusText status), (arg_int (size content)).
    split; [exact Hlayout|]. split; [apply arg_int_read|].
    repeat split; try (by intros ->). apply statusText_other.
  - rewrite Hlayout.
    rewrite <- (append_assoc "HTTP/1.1 "), <- (append_assoc _ " "),
      <- (append_assoc _ (statusText status)), <- (append_assoc _ CRLF),
      <- (append_assoc _ "Content-Type: "), <- (append_assoc _ (fromByteArray content_type)),
      <- (append_assoc _ CRLF), <- (append_assoc _ "Content-Length: "),
      <- (append_assoc _ (arg_int (size content))), <- (append_assoc _ CRLF).
    rewrite <- (append_assoc "Connection: close" CRLF).
    apply contains_app.
  - rewrite Hlayout.
    rewrite <- (append_assoc "HTTP/1.1 "), <- (append_assoc _ " "),
      <- (append_assoc _ (statusText status)), <- (append_assoc _ CRLF),
      <- (append_assoc _ "Content-Type: "), <- (append_assoc _ (fromByteArray content_type)),
      <- (append_assoc _ CRLF), <- (append_assoc _ "Content-Length: "),
      <- (append_assoc _ (arg_int (size content))), <- (append_assoc _ CRLF),
      <- (append_assoc _ "Connection: close"), <- (append_assoc _ CRLF).
    rewrite <- (append_assoc "Access-Control-Allow-Origin: *" CRLF).
    apply contains_app.
  - apply arg_int_read.
  - intros socket st Ho. by apply SendResponse_replied.
Qed.

(** *** Headers *)




Lemma drop_app K rest : drop (String.length K) (K +:+ rest) = rest.
Proof. induction K as [|k K IH]; [done|]. by rewrite append_cons. Qed.



Lemma isEmpty_false s : s <> "" -> isEmpty s = false.
Proof. by destruct s. Qed.

Lemma append_nonempty K rest : K <> "" -> K +:+ rest <> "".
Proof. by destruct K. Qed.




(** A line that is not filed is as good as absent. *)
Lemma parse_headers_skip l1 x : forall l2 h,
  x <> "" -> indexOf_char x ":" <= 0 ->
  parse_headers (l1 ++ x :: l2) h = parse_headers (l1 ++ l2) h.
Proof.
  induction l1 as [|y l1 IH]; intros l2 h Hx Hi.
  - cbn [app parse_headers]. rewrite (isEmpty_false _ Hx).
    by destruct (Z.ltb_spec 0 (indexOf_char x ":")); [lia|].
  - cbn [app parse_headers]. destruct (isEmpty y); [done|].
    destruct (0 <? indexOf_char y ":"); by apply IH.
Qed.


(** C10. A header line whose first colon is its first character, such as
    [:value], leaves no trace in the header map, although it has a colon:
    the map is the one built without the line. A non-empty line on its own
    yields an entry exactly when its first colon is at position one or
    later. *)
Theorem empty_header_name_ignored :
  (forall before value after headers,
     parse_headers (before ++ (":" +:+ value) :: after) headers
     = parse_headers (before ++ after) headers)
  /\ (forall line,
        line <> "" ->
        (parse_headers [line] ∅ <> ∅ <-> 1 <= indexOf_char line ":")).
Proof.
  split.
  - intros before value after headers. apply parse_headers_skip; [done|].
    unfold indexOf_char. change (":" +:+ value) with (String ":" value).
    cbn. lia.
  - intros line Hl. cbn [parse_headers]. rewrite (isEmpty_false _ Hl).
    destruct (Z.ltb_spec 0 (indexOf_char line ":")) as [Hp|Hp].
    + split; [lia|]. intros _. apply insert_non_empty.
    + split; [done|lia].
Qed.

(** ** Further properties *)

(** *** What one request can do *)

Lemma HandleAPIStartRecording_effect st :
  (HandleAPIStartRecording st).2 = st
  \/ exists c pr, m_page_record st = Some pr /\ allowed c pr = true
                  /\ (HandleAPIStartRecording st).2 = invoke c st.
Proof.
  unfold HandleAPIStartRecording. destruct (m_page_record st) as [pr|] eqn:Hpr; [|by left].
  destruct (IsPaused pr) eqn:Hp; [|destruct (IsRecording pr) eqn:Hr]; cbn [negb snd].
  - right. exists OnRecordStartPause, pr. by cbn.
  - by left.
  - right. exists OnRecordStart, pr. cbn. by rewrite Hp, Hr.
Qed.

Lemma HandleAPIPauseRecording_effect st :
  (HandleAPIPauseRecording st).2 = st
  \/ exists c pr, m_page_record st = Some pr /\ allowed c pr = true
                  /\ (HandleAPIPauseRecording st).2 = invoke c st.
Proof.
  unfold HandleAPIPauseRecording. destruct (m_page_record st) as [pr|] eqn:Hpr; [|by left].
  destruct (IsRecording pr && negb (IsPaused pr)) eqn:Hc; cbn [snd]; [|by left].
  right. by exists OnRecordPause, pr.
Qed.

Lemma HandleAPICancelRecording_effect st :
  (HandleAPICancelRecording st).2 = st
  \/ exists c pr, m_page_record st = Some pr /\ allowed c pr = true
                  /\ (HandleAPICancelRecording st).2 = invoke c st.
Proof.
  unfold HandleAPICancelRecording. destruct (m_page_record st) as [pr|] eqn:Hpr; [|by left].
  destruct (IsRecording pr) eqn:Hc; cbn [snd]; [|by left].
  right. exists (OnRecordCancel false), pr. cbn. by rewrite Hc.
Qed.

Lemma HandleAPISaveRecording_effect st :
  (HandleAPISaveRecording st).2 = st
  \/ exists c pr, m_page_record st = Some pr /\ allowed c pr = true
                  /\ (HandleAPISaveRecording st).2 = invoke c st.
Proof.
  unfold HandleAPISaveRecording. destruct (m_page_record st) as [pr|] eqn:Hpr; [|by left].
  destruct (IsRecording pr) eqn:Hc; cbn [snd]; [|by left].
  right. exists (OnRecordSave false), pr. cbn. by rewrite Hc.
Qed.

(** Whatever the path, the dispatch ends in one call of the response
    writer, after at most one call of a recorder slot in a state that
    allows it. *)
Lemma dispatch_shape socket path body st :
  exists st1 status ct content,
    dispatch socket path body st = SendResponse socket status ct content st1
    /\ (st1 = st
        \/ exists c pr, m_page_record st = Some pr /\ allowed c pr = true
                        /\ st1 = invoke c st).
Proof.
  unfold dispatch.
  repeat match goal with
         | |- context [if ?b || ?c then _ else _] => destruct (b || c)
         end.
  - rewrite (surjective_pairing (HandleAPIStartRecording st)).
    eexists _, _, _, _. split; [reflexivity|]. apply HandleAPIStartRecording_effect.
  - rewrite (surjective_pairing (HandleAPIPauseRecording st)).
    eexists _, _, _, _. split; [reflexivity|]. apply HandleAPIPauseRecording_effect.
  - rewrite (surjective_pairing (HandleAPISaveRecording st)).
    eexists _, _, _, _. split; [reflexivity|]. apply HandleAPISaveRecording_effect.
  - rewrite (surjective_pairing (HandleAPICancelRecording st)).
    eexists _, _, _, _. split; [reflexivity|]. apply HandleAPICancelRecording_effect.
  - eexists _, _, _, _. split; [reflexivity|]. by left.
  - eexists _, _, _, _. split; [reflexivity|]. by left.
  - eexists _, _, _, _. split; [reflexivity|]. by left.
  - destruct (startsWith path "api/").
    + rewrite HandleAPI_legacy. unfold legacy_outcome, legacy_table, legacy_lookup.
      repeat match goal with
             | |- context [String.eqb ?s ?x] => destruct (String.eqb s x)
             end;
        (eexists _, _, _, _; split; [reflexivity|]);
        auto using HandleAPIStartRecording_effect, HandleAPIPauseRecording_effect,
          HandleAPICancelRecording_effect, HandleAPISaveRecording_effect.
    + eexists _, _, _, _. split; [reflexivity|]. by left.
Qed.

Lemma HandleRequest_shape socket request st :
  socket <> NULL ->
  socket_isOpen st socket = true ->
  exists st1 status ct content,
    HandleRequest socket request st = SendResponse socket status ct content st1
    /\ (st1 = st
        \/ exists c pr, m_page_record st = Some pr /\ allowed c pr = true
                        /\ st1 = invoke c st).
Proof.
  intros Hn Ho. unfold HandleRequest. apply Nat.eqb_neq in Hn. rewrite Hn, Ho. cbn [orb negb].
  destruct (isEmpty request); [eexists _, _, _, _; split; [reflexivity|by left]|].
  destruct (bool_decide _); [eexists _, _, _, _; split; [reflexivity|by left]|].
  destruct (_ <? _)%nat; [eexists _, _, _, _; split; [reflexivity|by left]|].
  apply dispatch_shape.
Qed.

Lemma SendResponse_other socket status ct content st s :
  s <> socket ->
  sockets (SendResponse socket status ct content st) !! s = sockets st !! s.
Proof.
  intros Hs. unfold SendResponse, socket_close, socket_write.
  destruct (sockets st !! socket) as [x|] eqn:Hx; cbn; [|by rewrite Hx].
  destruct (isOpen x); cbn.
  - rewrite lookup_insert_eq. cbn. by rewrite !lookup_insert_ne.
  - rewrite Hx. cbn. by rewrite lookup_insert_ne.
Qed.

Lemma SendResponse_server socket status ct content st :
  m_server (SendResponse socket status ct content st) = m_server st.
Proof.
  unfold SendResponse, socket_close, socket_write.
  destruct (sockets st !! socket) as [x|] eqn:Hx; cbn; [|by rewrite Hx].
  destruct (isOpen x); cbn.
  - by rewrite lookup_insert_eq.
  - by rewrite Hx.
Qed.

(** What [HandleRequest] itself does on a live socket, the disconnect
    slot of the socket it closes not counted. *)
Lemma HandleRequest_one_write socket request st :
  socket <> NULL ->
  socket_isOpen st socket = true ->
  let st' := HandleRequest socket request st in
  (exists status content_type content,
     replied st st' socket status content_type content)
  /\ (forall s, s <> socket -> sockets st' !! s = sockets st !! s)
  /\ m_request_buffers st' = m_request_buffers st
  /\ m_server st' = m_server st.
Proof.
  intros Hn Ho st'. subst st'.
  destruct (HandleRequest_shape socket request st Hn Ho)
    as (st1 & status & ct & content & -> & Hst1).
  assert (Hs : sockets st1 = sockets st /\ m_request_buffers st1 = m_request_buffers st
               /\ m_server st1 = m_server st).
  { destruct Hst1 as [->|(c & pr & _ & _ & ->)]; done. }
  destruct Hs as (Hs & Hb & Hsrv).
  assert (Ho1 : socket_isOpen st1 socket = true)
    by (unfold socket_isOpen in *; by rewrite Hs).
  split; [|split; [|split]].
  - exists status, ct, content.
    destruct (SendResponse_replied socket status ct content st1 Ho1) as [Hw Hc].
    split; [|done]. rewrite Hw. unfold socket_written. by rewrite Hs.
  - intros s Hne. by rewrite SendResponse_other, Hs.
  - by rewrite SendResponse_buffers.
  - by rewrite SendResponse_server.
Qed.

Lemma disconnect_after socket st :
  socket <> NULL ->
  m_request_buffers (OnDisconnected socket st) = delete socket (m_request_buffers st)
  /\ sockets (OnDisconnected socket st) = delete socket (sockets st)
  /\ m_server (OnDisconnected socket st) = m_server st.
Proof.
  intros Hn. unfold OnDisconnected. apply Nat.eqb_neq in Hn. rewrite Hn.
  destruct (bool_decide_reflect (is_Some (m_request_buffers st !! socket))) as [H|H]; cbn.
  - done.
  - split; [|done]. symmetry. apply delete_id. by apply eq_None_not_Some.
Qed.

(** The same, for the part of the state that belongs to other
    connections, after the disconnect slot of the answered socket. *)
Lemma HandleRequest_then_disconnect socket request st :
  socket <> NULL ->
  socket_isOpen st socket = true ->
  let st' := OnDisconnected socket (HandleRequest socket request st) in
  same_elsewhere socket st st'
  /\ m_request_buffers st' !! socket = None
  /\ m_server st' = m_server st.
Proof.
  intros Hn Ho st'. subst st'.
  destruct (HandleRequest_one_write socket request st Hn Ho) as (_ & Hs & Hb & Hsrv).
  destruct (disconnect_after socket (HandleRequest socket request st) Hn)
    as (Hdb & Hds & Hdsrv).
  split; [split|split].
  - intros k Hk. rewrite Hds, lookup_delete_ne by done. by apply Hs.
  - intros k Hk. by rewrite Hdb, lookup_delete_ne, Hb by done.
  - rewrite Hdb. apply lookup_delete_eq.
  - by rewrite Hdsrv.
Qed.

(** X1. A request handled on a live socket, whatever its bytes, is answered
    by exactly one write on that socket, which is then closed; no other
    socket, no buffer of another connection and nothing of the listener
    changes. The socket's own entry in the connection table is not part of
    the statement for the moment [HandleRequest] returns: it belongs to the
    disconnect slot of the closed socket, which Qt runs from inside
    [close] when nothing is left to send and from the event loop
    otherwise. Once that slot has run the entry is gone, and the other
    connections and the listener are still as they were. *)
Theorem one_response_per_request socket request st :
  socket <> NULL ->
  socket_isOpen st socket = true ->
  let st' := HandleRequest socket request st in
  (exists status content_type content,
     replied st st' socket status content_type content)
  /\ same_elsewhere socket st st'
  /\ m_server st' = m_server st
  /\ same_elsewhere socket st (OnDisconnected socket st')
  /\ m_request_buffers (OnDisconnected socket st') !! socket = None
  /\ m_server (OnDisconnected socket st') = m_server st.
Proof.
  intros Hn Ho st'. subst st'.
  destruct (HandleRequest_one_write socket request st Hn Ho) as (Hr & Hs & Hb & Hsrv).
  destruct (HandleRequest_then_disconnect socket request st Hn Ho) as (He & Hg & Hl).
  split; [exact Hr|]. split; [split|].
  - exact Hs.
  - intros k _. by rewrite Hb.
  - done.
Qed.

(** X2. A request, whatever its bytes and whatever the socket it comes
    from, makes the service call at most one recorder slot, and only in a
    recorder state that allows the slot: start when neither recording nor
    paused, the pause toggle when paused, pause when recording and not
    paused, save and cancel when recording and always without
    confirmation. *)
Theorem slot_calls_are_allowed socket request st pr :
  m_page_record st = Some pr ->
  let st' := HandleRequest socket request st in
  (calls st' = calls st /\ m_page_record st' = Some pr)
  \/ (exists c, allowed c pr = true
                /\ calls st' = (calls st ++ [c])%list
                /\ m_page_record st' = Some (page_record_exec c pr)).
Proof.
  intros Hpr st'. subst st'.
  destruct (decide (socket <> NULL /\ socket_isOpen st socket = true)) as [[Hn Ho]|Hg].
  - destruct (HandleRequest_shape socket request st Hn Ho)
      as (st1 & status & ct & content & -> & Hst1).
    rewrite SendResponse_calls, SendResponse_page_record.
    destruct Hst1 as [->|(c & pr' & Hpr' & Hc & ->)]; [by left|].
    right. exists c. rewrite Hpr in Hpr'. injection Hpr' as <-.
    split; [done|]. split; [done|]. cbn. by rewrite Hpr.
  - left. unfold HandleRequest.
    destruct (Nat.eqb_spec socket NULL) as [->|Hn]; [done|].
    destruct (socket_isOpen st socket) eqn:Ho; [|done].
    exfalso. by apply Hg.
Qed.


(** *** The help page *)

(** X3. A request for the root path, [index] or [index.html] that reaches
    the dispatch is answered with one plain-text message of status 200
    whose body is the list of endpoints, in every recorder state, and no
    recorder slot is invoked. *)
Theorem index_page socket request st :
  reaches_dispatch socket request st = true ->
  In (normalized_path request) index_paths ->
  let st' := HandleRequest socket request st in
  replied st st' socket 200 "text/plain" index_content
  /\ calls st' = calls st
  /\ m_page_record st' = m_page_record st.
Proof.
  intros Hr Hp st'. subst st'.
  rewrite (HandleRequest_dispatch _ _ _ Hr).
  destruct (reaches_dispatch_spec _ _ _ Hr) as (_ & Ho & _).
  assert (Hd : dispatch socket (normalized_path request) (request_body request) st
               = SendResponse socket 200 "text/plain" index_content st).
  { cbn in Hp. destruct Hp as [<-|[<-|[<-|[]]]]; reflexivity. }
  rewrite Hd, SendResponse_calls, SendResponse_page_record.
  split; [|done]. by apply SendResponse_replied.
Qed.

(** *** The branch for a missing recorder is dead *)

Lemma error_envelope_inj m1 m2 : error_envelope m1 = error_envelope m2 -> m1 = m2.
Proof.
  intros H. apply (f_equal (fun m => m !! "error")) in H.
  unfold error_envelope in H.
  rewrite !lookup_insert_ne, !lookup_singleton_eq in H by done. congruence.
Qed.

(** X4. In every state a constructed service can reach, none of the four
    recording handlers answers "No access to recording page", and the
    status handler never answers with an empty data object: the null test
    on the recorder pointer, which the constructor already made, never
    fires. *)
Theorem no_access_error_is_dead st :
  reachable st ->
  (HandleAPIStartRecording st).1 <> error_envelope "No access to recording page"
  /\ (HandleAPIPauseRecording st).1 <> error_envelope "No access to recording page"
  /\ (HandleAPICancelRecording st).1 <> error_envelope "No access to recording page"
  /\ (HandleAPISaveRecording st).1 <> error_envelope "No access to recording page"
  /\ (HandleAPIStatus st).1 <> success_envelope ∅.
Proof.
  intros Hr. destruct (reachable_page_record st Hr) as [pr Hpr].
  unfold HandleAPIStartRecording, HandleAPIPauseRecording, HandleAPICancelRecording,
    HandleAPISaveRecording.
  rewrite (HandleAPIStatus_result st pr Hpr), Hpr.
  rewrite ?CreateSuccessResponse_envelope, ?CreateErrorResponse_envelope.
  repeat split.
  - destruct (IsPaused pr); [|destruct (IsRecording pr)]; cbn [fst negb];
      first [apply success_not_error | intros H; apply error_envelope_inj in H; discriminate].
  - destruct (IsRecording pr && negb (IsPaused pr)); cbn [fst];
      first [apply success_not_error | intros H; apply error_envelope_inj in H; discriminate].
  - destruct (IsRecording pr); cbn [fst];
      first [apply success_not_error | intros H; apply error_envelope_inj in H; discriminate].
  - destruct (IsRecording pr); cbn [fst];
      first [apply success_not_error | intros H; apply error_envelope_inj in H; discriminate].
  - cbn [fst]. intros H. apply success_envelope_inj in H.
    apply (f_equal (fun m => m !! "is_recording")) in H.
    rewrite lookup_insert_eq, lookup_empty in H. discriminate.
Qed.

(** *** One reply per connection *)

Lemma one_reply_each_sockets st st' :
  sockets st' = sockets st -> one_reply_each st -> one_reply_each st'.
Proof. unfold one_reply_each. by intros ->. Qed.

Lemma foldr_delete_lookup_Some {A} (m : gmap nat A) (l : list nat) k x :
  foldr delete m l !! k = Some x -> m !! k = Some x.
Proof.
  induction l as [|y l IH]; cbn; [done|].
  destruct (decide (y = k)) as [->|Hne].
  - by rewrite lookup_delete_eq.
  - rewrite lookup_delete_ne by done. apply IH.
Qed.

Lemma one_reply_each_SendResponse socket status ct content st :
  socket_isOpen st socket = true ->
  one_reply_each st ->
  one_reply_each (SendResponse socket status ct content st).
Proof.
  intros Ho Hinv s x Hx.
  destruct (decide (s = socket)) as [->|Hne].
  - unfold SendResponse, socket_close, socket_write, socket_isOpen in *.
    destruct (sockets st !! socket) as [y|] eqn:Hy; [|discriminate].
    rewrite Ho in Hx. cbn in Hx. rewrite lookup_insert_eq in Hx. cbn in Hx.
    rewrite lookup_insert_eq in Hx. injection Hx as <-. cbn.
    specialize (Hinv socket y Hy). rewrite Ho in Hinv. rewrite Hinv. cbn. lia.
  - rewrite SendResponse_other in Hx by done. by apply (Hinv s x).
Qed.

Lemma one_reply_each_HandleRequest socket request st :
  one_reply_each st -> one_reply_each (HandleRequest socket request st).
Proof.
  intros Hinv.
  destruct (decide (socket <> NULL /\ socket_isOpen st socket = true)) as [[Hn Ho]|Hg].
  - destruct (HandleRequest_shape socket request st Hn Ho)
      as (st1 & status & ct & content & -> & Hst1).
    assert (Hs : sockets st1 = sockets st)
      by (destruct Hst1 as [->|(c & pr & _ & _ & ->)]; done).
    apply one_reply_each_SendResponse.
    + unfold socket_isOpen in *. by rewrite Hs.
    + by apply (one_reply_each_sockets st).
  - unfold HandleRequest.
    destruct (Nat.eqb_spec socket NULL) as [->|Hn]; [done|].
    destruct (socket_isOpen st socket) eqn:Ho; [|done].
    exfalso. by apply Hg.
Qed.

Lemma one_reply_each_insert socket x st :
  one_reply_each st ->
  (if isOpen x then written x = [] else (length (written x) <= 1)%nat) ->
  one_reply_each (set_sockets (<[socket := x]> (sockets st)) st).
Proof.
  intros Hinv Hx s y Hy. cbn in Hy.
  destruct (decide (socket = s)) as [->|Hne].
  - rewrite lookup_insert_eq in Hy. by injection Hy as <-.
  - rewrite lookup_insert_ne in Hy by done. by apply (Hinv s y).
Qed.

Lemma one_reply_each_readAll socket st :
  one_reply_each st -> one_reply_each (socket_readAll socket st).2.
Proof.
  intros Hinv. unfold socket_readAll.
  destruct (sockets st !! socket) as [x|] eqn:Hx; [|done]. cbn [snd].
  apply one_reply_each_insert; [done|]. apply (Hinv socket x Hx).
Qed.

Lemma one_reply_each_step st st' :
  step st st' -> one_reply_each st -> one_reply_each st'.
Proof.
  intros Hstep Hinv. destruct Hstep.
  - unfold Start. destruct (QTcpServer_listen _ _) as [[] srv]; done.
  - unfold Stop. destruct (isListening _); [|done].
    intros s x Hx. cbn in Hx. apply foldr_delete_lookup_Some in Hx. by apply (Hinv s x).
  - unfold env_connect. destruct (_ && _); [|done].
    apply (one_reply_each_sockets
             (set_sockets (<[socket := {| isOpen := true; incoming := ""; written := [] |}]>
                             (sockets st)) st)); [done|].
    by apply one_reply_each_insert.
  - unfold env_receive. destruct (sockets st !! socket) as [x|] eqn:Hx; [|done].
    destruct (isOpen x) eqn:Ho; [|done].
    apply one_reply_each_insert; [done|]. cbn.
    specialize (Hinv socket x Hx). by rewrite Ho in Hinv.
  - unfold OnNewConnection. by destruct (pendingConnections _).
  - unfold OnReadyRead.
    destruct (Nat.eqb socket NULL); [done|].
    destruct (negb _); [done|].
    pose proof (one_reply_each_readAll socket st Hinv) as Hr.
    destruct (socket_readAll socket st) as [data st1]. cbn [snd] in Hr.
    destruct (isEmpty data); [done|].
    destruct (contains _ _); [|done].
    match goal with
    | |- context [HandleRequest socket ?r ?s] =>
        assert (Hh : one_reply_each (HandleRequest socket r s))
          by (apply one_reply_each_HandleRequest; done);
        destruct (bool_decide (is_Some (m_request_buffers (HandleRequest socket r s) !! socket)))
    end; done.
  - unfold OnDisconnected. destruct (Nat.eqb _ _); [done|].
    intros s x Hx. cbn in Hx.
    destruct (decide (socket = s)) as [->|Hne].
    + by rewrite lookup_delete_eq in Hx.
    + rewrite lookup_delete_ne in Hx by done.
      destruct (bool_decide _); by apply (Hinv s x).
Qed.

(** X5. In every state a constructed service can reach, each socket has
    been written to at most once, and not at all while it is still open:
    a connection gets one response and is then closed, whatever arrives
    and in whatever order the slots run. *)
Theorem one_reply_per_connection st :
  reachable st -> one_reply_each st.
Proof.
  induction 1 as [pr st Hnew | st st' _ IH Hstep].
  - injection Hnew as <-. intros s x Hx. cbn in Hx. by rewrite lookup_empty in Hx.
  - by apply (one_reply_each_step st st').
Qed.


(** *** Bystanders: changes of the state a request does not see *)

Lemma dispatch_eq socket path body st :
  dispatch socket path body st
  = if (path =? "start")%string || (path =? "record/start")%string then
      SendJsonResponse socket 200 (HandleAPIStartRecording st).1 (HandleAPIStartRecording st).2
    else if (path =? "pause")%string || (path =? "record/pause")%string then
      SendJsonResponse socket 200 (HandleAPIPauseRecording st).1 (HandleAPIPauseRecording st).2
    else if (path =? "save")%string || (path =? "record/save")%string then
      SendJsonResponse socket 200 (HandleAPISaveRecording st).1 (HandleAPISaveRecording st).2
    else if (path =? "cancel")%string || (path =? "record/cancel")%string then
      SendJsonResponse socket 200 (HandleAPICancelRecording st).1
        (HandleAPICancelRecording st).2
    else if (path =? "status")%string || (path =? "record/status")%string then
      SendJsonResponse socket 200 (HandleAPIStatus st).1 (HandleAPIStatus st).2
    else if (path =? "api/status")%string || (path =? "api/record/status")%string then
      SendJsonResponse socket 200 (HandleAPIStatus st).1 (HandleAPIStatus st).2
    else if (path =? "")%string || (path =? "index.html")%string
            || (path =? "index")%string then
      SendResponse socket 200 "text/plain" index_content st
    else if startsWith path "api/" then legacy_outcome socket (mid path 4) st
    else SendResponse socket 404 "text/plain" "Not Found" st.
Proof.
  unfold dispatch.
  destruct (HandleAPIStartRecording st), (HandleAPIPauseRecording st),
    (HandleAPISaveRecording st), (HandleAPICancelRecording st).
  by rewrite HandleAPI_legacy.
Qed.

Section Bystander.

(** A change [T] of the state that keeps the recorder and the openness of
    [socket], and that it makes no difference to apply before or after a
    slot call or a response on [socket]. *)
Variable socket : nat.
Variable T : HTTPServer -> HTTPServer.
Hypothesis T_page_record : forall st, m_page_record (T st) = m_page_record st.
Hypothesis T_isOpen : forall st, socket_isOpen (T st) socket = socket_isOpen st socket.
Hypothesis T_invoke : forall c st, T (invoke c st) = invoke c (T st).
Hypothesis T_SendResponse : forall status ct content st,
  SendResponse socket status ct content (T st) = T (SendResponse socket status ct content st).

Lemma HandleAPIStatus_bystander st :
  HandleAPIStatus (T st) = ((HandleAPIStatus st).1, T (HandleAPIStatus st).2).
Proof. unfold HandleAPIStatus. by rewrite T_page_record. Qed.

Lemma HandleAPIStartRecording_bystander st :
  HandleAPIStartRecording (T st)
  = ((HandleAPIStartRecording st).1, T (HandleAPIStartRecording st).2).
Proof.
  unfold HandleAPIStartRecording. rewrite T_page_record.
  destruct (m_page_record st) as [pr|]; [|done].
  destruct (IsPaused pr); [|destruct (IsRecording pr)]; cbn [negb fst snd];
    by rewrite ?T_invoke.
Qed.

Lemma HandleAPIPauseRecording_bystander st :
  HandleAPIPauseRecording (T st)
  = ((HandleAPIPauseRecording st).1, T (HandleAPIPauseRecording st).2).
Proof.
  unfold HandleAPIPauseRecording. rewrite T_page_record.
  destruct (m_page_record st) as [pr|]; [|done].
  destruct (IsRecording pr && negb (IsPaused pr)); cbn [fst snd]; by rewrite ?T_invoke.
Qed.

Lemma HandleAPICancelRecording_bystander st :
  HandleAPICancelRecording (T st)
  = ((HandleAPICancelRecording st).1, T (HandleAPICancelRecording st).2).
Proof.
  unfold HandleAPICancelRecording. rewrite T_page_record.
  destruct (m_page_record st) as [pr|]; [|done].
  destruct (IsRecording pr); cbn [fst snd]; by rewrite ?T_invoke.
Qed.

Lemma HandleAPISaveRecording_bystander st :
  HandleAPISaveRecording (T st)
  = ((HandleAPISaveRecording st).1, T (HandleAPISaveRecording st).2).
Proof.
  unfold HandleAPISaveRecording. rewrite T_page_record.
  destruct (m_page_record st) as [pr|]; [|done].
  destruct (IsRecording pr); cbn [fst snd]; by rewrite ?T_invoke.
Qed.

Lemma legacy_outcome_bystander suffix st :
  legacy_outcome socket suffix (T st) = T (legacy_outcome socket suffix st).
Proof.
  unfold legacy_outcome, legacy_table, legacy_lookup, SendJsonResponse.
  repeat match goal with
         | |- context [String.eqb suffix ?x] => destruct (String.eqb suffix x)
         end;
    rewrite ?HandleAPIStatus_bystander, ?HandleAPIStartRecording_bystander,
      ?HandleAPIPauseRecording_bystander, ?HandleAPICancelRecording_bystander,
      ?HandleAPISaveRecording_bystander; cbn [fst snd]; apply T_SendResponse.
Qed.

Lemma dispatch_bystander path body st :
  dispatch socket path body (T st) = T (dispatch socket path body st).
Proof.
  rewrite !dispatch_eq. unfold SendJsonResponse.
  repeat match goal with
         | |- context [if ?b || ?c then _ else _] => destruct (b || c)
         end;
    rewrite ?HandleAPIStatus_bystander, ?HandleAPIStartRecording_bystander,
      ?HandleAPIPauseRecording_bystander, ?HandleAPICancelRecording_bystander,
      ?HandleAPISaveRecording_bystander; cbn [fst snd]; try apply T_SendResponse.
  destruct (startsWith path "api/"); [apply legacy_outcome_bystander|apply T_SendResponse].
Qed.

Lemma HandleRequest_bystander request st :
  HandleRequest socket request (T st) = T (HandleRequest socket request st).
Proof.
  unfold HandleRequest. rewrite T_isOpen.
  destruct (Nat.eqb socket NULL || negb (socket_isOpen st socket)); [done|].
  destruct (isEmpty request); [apply T_SendResponse|].
  destruct (bool_decide _); [apply T_SendResponse|].
  destruct (_ <? _)%nat; [apply T_SendResponse|].
  apply dispatch_bystander.
Qed.

End Bystander.

Lemma set_buffers_SendResponse b socket status ct content st :
  SendResponse socket status ct content (set_buffers b st)
  = set_buffers b (SendResponse socket status ct content st).
Proof.
  unfold SendResponse, socket_close, socket_write. cbn.
  destruct (sockets st !! socket) as [x|] eqn:Hx; cbn; [|by rewrite Hx].
  destruct (isOpen x); cbn.
  - by rewrite !lookup_insert_eq.
  - by rewrite Hx.
Qed.

(** The buffers of the connection table are bystanders of a request. *)
Lemma HandleRequest_set_buffers b socket request st :
  HandleRequest socket request (set_buffers b st)
  = set_buffers b (HandleRequest socket request st).
Proof.
  apply (HandleRequest_bystander socket (set_buffers b)); try done.
  intros. apply set_buffers_SendResponse.
Qed.

(** The state after [readAll] on a socket, whatever was read. *)
Lemma socket_readAll_SendResponse socket status ct content st :
  SendResponse socket status ct content (socket_readAll socket st).2
  = (socket_readAll socket (SendResponse socket status ct content st)).2.
Proof.
  unfold SendResponse, socket_close, socket_write, socket_readAll.
  destruct (sockets st !! socket) as [x|] eqn:Hx; cbn; [|by rewrite Hx; cbn; rewrite Hx].
  rewrite lookup_insert_eq. cbn.
  destruct (isOpen x); cbn.
  - rewrite !lookup_insert_eq. cbn. rewrite !lookup_insert_eq. cbn.
    by rewrite !insert_insert_eq.
  - rewrite !lookup_insert_eq, Hx. cbn. rewrite !lookup_insert_eq. cbn.
    by rewrite !insert_insert_eq.
Qed.

(** What a socket still holds unread is a bystander of a request. *)
Lemma HandleRequest_readAll socket request st :
  HandleRequest socket request (socket_readAll socket st).2
  = (socket_readAll socket (HandleRequest socket request st)).2.
Proof.
  apply (HandleRequest_bystander socket (fun st => (socket_readAll socket st).2)).
  - intros st0. unfold socket_readAll. by destruct (sockets st0 !! socket).
  - intros st0. unfold socket_isOpen, socket_readAll.
    destruct (sockets st0 !! socket) as [x|] eqn:Hx; cbn; [|by rewrite Hx].
    by rewrite lookup_insert_eq.
  - intros c st0. unfold socket_readAll. cbn. by destruct (sockets st0 !! socket).
  - intros. apply socket_readAll_SendResponse.
Qed.


(** *** The read slot *)

Lemma HandleRequest_frame socket request st :
  same_elsewhere socket st (HandleRequest socket request st)
  /\ m_request_buffers (HandleRequest socket request st) = m_request_buffers st
  /\ m_server (HandleRequest socket request st) = m_server st.
Proof.
  destruct (decide (socket <> NULL /\ socket_isOpen st socket = true)) as [[Hn Ho]|Hg].
  - destruct (HandleRequest_one_write socket request st Hn Ho) as (_ & Hs & Hb & Hsrv).
    repeat split; try done. intros k Hk. by rewrite Hb.
  - assert (HandleRequest socket request st = st) as ->; [|done].
    unfold HandleRequest.
    destruct (Nat.eqb_spec socket NULL) as [->|Hn]; [done|].
    destruct (socket_isOpen st socket) eqn:Ho; [|done].
    exfalso. by apply Hg.
Qed.

Lemma socket_readAll_frame socket st :
  same_elsewhere socket st (socket_readAll socket st).2
  /\ m_request_buffers (socket_readAll socket st).2 = m_request_buffers st
  /\ m_server (socket_readAll socket st).2 = m_server st
  /\ calls (socket_readAll socket st).2 = calls st.
Proof.
  unfold socket_readAll, same_elsewhere.
  destruct (sockets st !! socket) as [x|]; cbn; [|done].
  repeat split; try done. intros k Hk. by rewrite lookup_insert_ne.
Qed.

Lemma OnReadyRead_frame socket st :
  same_elsewhere socket st (OnReadyRead socket st)
  /\ m_server (OnReadyRead socket st) = m_server st.
Proof.
  unfold OnReadyRead.
  destruct (Nat.eqb socket NULL); [done|].
  destruct (negb _); [done|].
  destruct (socket_readAll_frame socket st) as ([Hs Hb] & Hbe & Hsrv & _).
  destruct (socket_readAll socket st) as [data st1]. cbn [snd] in *.
  destruct (isEmpty data); [done|].
  match goal with
  | |- context [set_buffers ?B st1] => set (st2 := set_buffers B st1)
  end.
  assert (H2 : same_elsewhere socket st st2 /\ m_server st2 = m_server st).
  { subst st2. repeat split; cbn; try done.
    intros k Hk. rewrite lookup_insert_ne by done. by apply Hb. }
  destruct (contains _ _); [|done].
  match goal with
  | |- context [HandleRequest socket ?r st2] =>
      destruct (HandleRequest_frame socket r st2) as ([Hs3 Hb3] & _ & Hsrv3);
      set (st3 := HandleRequest socket r st2) in *
  end.
  destruct H2 as ([Hs2 Hb2] & Hsrv2).
  destruct (bool_decide _); repeat split; cbn; try congruence.
  - intros k Hk. rewrite Hs3 by done. by apply Hs2.
  - intros k Hk. rewrite lookup_insert_ne, Hb3 by done. by apply Hb2.
  - intros k Hk. rewrite Hs3 by done. by apply Hs2.
  - intros k Hk. rewrite Hb3 by done. by apply Hb2.
Qed.

(** X6. The read slot for one socket leaves every other connection alone:
    the buffers and the sockets of the other connections are as before,
    and so is the listener, whatever the bytes that arrived. *)
Theorem connections_are_isolated socket st :
  let st' := OnReadyRead socket st in
  (forall k, k <> socket ->
     sockets st' !! k = sockets st !! k
     /\ m_request_buffers st' !! k = m_request_buffers st !! k)
  /\ m_server st' = m_server st.
Proof.
  destruct (OnReadyRead_frame socket st) as ([Hs Hb] & Hsrv).
  split; [|done]. intros k Hk. split; [by apply Hs|by apply Hb].
Qed.

(** The read slot on a registered socket that has unread bytes. *)
Lemma OnReadyRead_eq socket st b s :
  socket <> NULL ->
  m_request_buffers st !! socket = Some b ->
  sockets st !! socket = Some s ->
  incoming s <> "" ->
  OnReadyRead socket st
  = if contains (b +:+ incoming s) (CRLF +:+ CRLF)
    then set_buffers (<[socket := ""]> (m_request_buffers st))
           (HandleRequest socket (b +:+ incoming s) (socket_readAll socket st).2)
    else set_buffers (<[socket := b +:+ incoming s]> (m_request_buffers st))
           (socket_readAll socket st).2.
Proof.
  intros Hn Hb Hs Hi. unfold OnReadyRead.
  apply Nat.eqb_neq in Hn. rewrite Hn, Hb.
  rewrite bool_decide_eq_true_2 by by eexists. cbn [negb].
  unfold socket_readAll. rewrite Hs. cbn [snd].
  rewrite (isEmpty_false _ Hi). cbn. rewrite Hb. cbn [default].
  destruct (contains _ _); [|done].
  rewrite HandleRequest_set_buffers. cbn.
  rewrite lookup_insert_eq, bool_decide_eq_true_2 by by eexists.
  by rewrite insert_insert_eq.
Qed.

Lemma socket_readAll_written socket st :
  socket_written (socket_readAll socket st).2 socket = socket_written st socket
  /\ socket_isOpen (socket_readAll socket st).2 socket = socket_isOpen st socket
  /\ m_page_record (socket_readAll socket st).2 = m_page_record st.
Proof.
  unfold socket_readAll, socket_written, socket_isOpen.
  destruct (sockets st !! socket) as [x|] eqn:Hx; cbn; [|by rewrite Hx].
  by rewrite lookup_insert_eq.
Qed.

(** X7. The read slot, on a registered live socket with unread bytes,
    appends them to the connection's buffer. While the buffer holds no
    blank line the bytes are only kept: nothing is written, the socket
    stays open and no recorder slot is invoked. As soon as it holds one,
    the whole buffer is handled as one request: one message is written, the
    socket is closed, the recorder is treated as [HandleRequest] treats it
    for that buffer, and the connection's buffer is left empty (the
    disconnect signal of the closed socket being delivered once the slot
    has returned). *)
Theorem ready_read_outcome socket st b s :
  socket <> NULL ->
  m_request_buffers st !! socket = Some b ->
  sockets st !! socket = Some s ->
  isOpen s = true ->
  incoming s <> "" ->
  let st' := OnReadyRead socket st in
  let buffer := b +:+ incoming s in
  if contains buffer terminator
  then m_request_buffers st' = <[socket := ""]> (m_request_buffers st)
       /\ (exists status content_type content,
             socket_written st' socket
             = (written s ++ [response_bytes status content_type content])%list)
       /\ socket_isOpen st' socket = false
       /\ calls st' = calls (HandleRequest socket buffer st)
       /\ m_page_record st' = m_page_record (HandleRequest socket buffer st)
  else m_request_buffers st' = <[socket := buffer]> (m_request_buffers st)
       /\ socket_written st' socket = written s
       /\ socket_isOpen st' socket = true
       /\ calls st' = calls st
       /\ m_page_record st' = m_page_record st.
Proof.
  intros Hn Hb Hs Ho Hi st' buffer. subst st' buffer.
  rewrite (OnReadyRead_eq socket st b s Hn Hb Hs Hi). unfold terminator.
  assert (Hw : socket_written st socket = written s)
    by (unfold socket_written; by rewrite Hs).
  assert (Ho' : socket_isOpen st socket = true)
    by (unfold socket_isOpen; by rewrite Hs).
  destruct (contains _ _).
  - rewrite HandleRequest_readAll.
    set (st3 := HandleRequest socket (b +:+ incoming s) st).
    destruct (HandleRequest_one_write socket (b +:+ incoming s) st Hn Ho')
      as ((status & ct & content & Hrep & Hcl) & _ & Hbuf & _).
    fold st3 in Hrep, Hcl, Hbuf.
    destruct (socket_readAll_written socket st3) as (Hw3 & Ho3 & Hp3).
    destruct (socket_readAll_frame socket st3) as (_ & _ & _ & Hc3).
    split; [by cbn|]. split; [|split; [|split]].
    + exists status, ct, content.
      change (socket_written (set_buffers ?B ?X) socket) with (socket_written X socket).
      by rewrite Hw3, Hrep, Hw.
    + change (socket_isOpen (set_buffers ?B ?X) socket) with (socket_isOpen X socket).
      by rewrite Ho3.
    + done.
    + done.
  - destruct (socket_readAll_written socket st) as (Hw1 & Ho1 & Hp1).
    destruct (socket_readAll_frame socket st) as (_ & _ & _ & Hc1).
    split; [by cbn|]. split; [|split; [|split]].
    + change (socket_written (set_buffers ?B ?X) socket) with (socket_written X socket).
      by rewrite Hw1.
    + change (socket_isOpen (set_buffers ?B ?X) socket) with (socket_isOpen X socket).
      by rewrite Ho1.
    + done.
    + done.
Qed.


Lemma HTTPServer_eq (a b : HTTPServer) :
  m_server a = m_server b -> m_page_record a = m_page_record b ->
  m_request_buffers a = m_request_buffers b -> sockets a = sockets b ->
  calls a = calls b -> a = b.
Proof. destruct a, b. cbn. by intros -> -> -> -> ->. Qed.

Lemma append_nil_r (a : string) : a +:+ "" = a.
Proof. induction a as [|c a IH]; [done|]. by rewrite append_cons, IH. Qed.

(** X8. How a request is cut into packets does not matter. On a registered
    live socket with nothing unread, two non-empty packets, the first of
    which does not yet complete the blank line, each followed by a run of
    the read slot, lead to the same state as the two packets arriving as
    one. *)
Theorem fragments_add_up socket st b s d1 d2 :
  socket <> NULL ->
  m_request_buffers st !! socket = Some b ->
  sockets st !! socket = Some s ->
  isOpen s = true ->
  incoming s = "" ->
  d1 <> "" ->
  d2 <> "" ->
  contains (b +:+ d1) terminator = false ->
  OnReadyRead socket (env_receive socket d2 (OnReadyRead socket (env_receive socket d1 st)))
  = OnReadyRead socket (env_receive socket (d1 +:+ d2) st).
Proof.
  intros Hn Hb Hs Ho Hi H1 H2 Hc. unfold terminator in Hc.
  destruct s as [o i w]. cbn in Ho, Hi. subst o i.
  set (rest := set_sockets (<[socket := {| isOpen := true; incoming := ""; written := w |}]>
                              (sockets st)) st).
  (* the first packet is only kept *)
  assert (E1 : OnReadyRead socket (env_receive socket d1 st)
               = set_buffers (<[socket := b +:+ d1]> (m_request_buffers st)) rest).
  { unfold env_receive. rewrite Hs. cbn [isOpen incoming written].
    rewrite (OnReadyRead_eq socket
               (set_sockets (<[socket := {| isOpen := true; incoming := "" +:+ d1;
                                            written := w |}]> (sockets st)) st)
               b {| isOpen := true; incoming := d1; written := w |});
      [|done|done|cbn; by rewrite lookup_insert_eq|done].
    cbn [incoming]. rewrite Hc.
    unfold socket_readAll. cbn. rewrite lookup_insert_eq. cbn.
    by rewrite insert_insert_eq. }
  rewrite E1.
  (* the second packet completes the buffer or not *)
  assert (E2 : env_receive socket d2
                 (set_buffers (<[socket := b +:+ d1]> (m_request_buffers st)) rest)
               = set_buffers (<[socket := b +:+ d1]> (m_request_buffers st))
                   (set_sockets (<[socket := {| isOpen := true; incoming := d2;
                                                written := w |}]> (sockets st)) st)).
  { unfold env_receive. cbn. rewrite lookup_insert_eq. cbn. by rewrite insert_insert_eq. }
  rewrite E2.
  rewrite (OnReadyRead_eq socket _ (b +:+ d1)
             {| isOpen := true; incoming := d2; written := w |});
    [|done|cbn; by rewrite lookup_insert_eq|cbn; by rewrite lookup_insert_eq|done].
  (* both packets at once *)
  unfold env_receive. rewrite Hs. cbn [isOpen incoming written].
  rewrite (OnReadyRead_eq socket
             (set_sockets (<[socket := {| isOpen := true; incoming := "" +:+ d1 +:+ d2;
                                          written := w |}]> (sockets st)) st)
             b {| isOpen := true; incoming := d1 +:+ d2; written := w |});
    [|done|done|cbn; by rewrite lookup_insert_eq|by destruct d1].
  cbn [incoming]. rewrite append_assoc.
  unfold socket_readAll. cbn. rewrite !lookup_insert_eq. cbn. rewrite !insert_insert_eq.
  match goal with
  | |- (if _ then set_buffers _ (HandleRequest _ _ ?X) else _)
       = (if _ then set_buffers _ (HandleRequest _ _ ?Y) else _) =>
      change X with (set_buffers (<[socket := b +:+ d1]> (m_request_buffers st)) rest);
      change Y with rest
  end.
  destruct (contains (b +:+ d1 +:+ d2) (CRLF +:+ CRLF)); [|reflexivity].
  by rewrite HandleRequest_set_buffers.
Qed.

(** *** The disconnect slot *)

(** X9. After the disconnect slot has run for a socket, the connection is
    forgotten: its buffer and its socket object are gone, the other
    connections and the trace of recorder calls are untouched, and nothing
    that still happens for that socket (bytes arriving, the read slot, a
    second disconnect) changes anything. *)
Theorem disconnect_forgets socket st :
  socket <> NULL ->
  let st' := OnDisconnected socket st in
  m_request_buffers st' !! socket = None
  /\ sockets st' !! socket = None
  /\ same_elsewhere socket st st'
  /\ calls st' = calls st
  /\ m_page_record st' = m_page_record st
  /\ (forall data, env_receive socket data st' = st')
  /\ OnReadyRead socket st' = st'
  /\ OnDisconnected socket st' = st'.
Proof.
  intros Hn st'.
  assert (Hb : m_request_buffers st' = delete socket (m_request_buffers st)).
  { subst st'. unfold OnDisconnected. apply Nat.eqb_neq in Hn. rewrite Hn.
    destruct (bool_decide_reflect (is_Some (m_request_buffers st !! socket))) as [H|H]; cbn.
    - done.
    - symmetry. apply delete_id. by apply eq_None_not_Some. }
  assert (Hs : sockets st' = delete socket (sockets st)).
  { subst st'. unfold OnDisconnected. apply Nat.eqb_neq in Hn. rewrite Hn.
    by destruct (bool_decide _). }
  assert (Hrest : m_server st' = m_server st /\ calls st' = calls st
                  /\ m_page_record st' = m_page_record st).
  { subst st'. unfold OnDisconnected. apply Nat.eqb_neq in Hn. rewrite Hn.
    by destruct (bool_decide _). }
  destruct Hrest as (Hsrv & Hc & Hp).
  assert (Hbn : m_request_buffers st' !! socket = None)
    by (rewrite Hb; apply lookup_delete_eq).
  assert (Hsn : sockets st' !! socket = None)
    by (rewrite Hs; apply lookup_delete_eq).
  repeat split; try done.
  - intros k Hk. rewrite Hs. by apply lookup_delete_ne.
  - intros k Hk. rewrite Hb. by apply lookup_delete_ne.
  - intros data. unfold env_receive. by rewrite Hsn.
  - unfold OnReadyRead. apply Nat.eqb_neq in Hn. rewrite Hn, Hbn.
    by rewrite bool_decide_eq_false_2 by by intros [? ?].
  - unfold OnDisconnected at 1. apply Nat.eqb_neq in Hn. rewrite Hn, Hbn.
    rewrite bool_decide_eq_false_2 by by intros [? ?].
    apply HTTPServer_eq; cbn; try done. by apply delete_id.
Qed.

(** *** A connection from accept to disconnect *)

(** X10. A whole connection leaves nothing behind. On a listening service
    with no other connection pending, a client that connects on a fresh
    socket, is accepted, sends any bytes at all, has the read slot run and
    then disconnects, leaves the connection table, the heap of sockets and
    the listener exactly as they were before it connected. *)
Theorem connection_leaves_no_trace socket data st :
  socket <> NULL ->
  isListening (m_server st) = true ->
  pendingConnections (m_server st) = [] ->
  sockets st !! socket = None ->
  m_request_buffers st !! socket = None ->
  let st' := OnDisconnected socket
               (OnReadyRead socket
                  (env_receive socket data
                     (OnNewConnection (env_connect socket st)))) in
  m_request_buffers st' = m_request_buffers st
  /\ sockets st' = sockets st
  /\ m_server st' = m_server st.
Proof.
  intros Hn Hl Hp Hs Hb. cbv zeta.
  set (st1 := OnNewConnection (env_connect socket st)).
  assert (H1 : same_elsewhere socket st st1 /\ m_server st1 = m_server st).
  { subst st1. unfold env_connect. rewrite Hl, Hs.
    apply Nat.eqb_neq in Hn. rewrite Hn.
    rewrite bool_decide_eq_false_2 by by intros [? ?]. cbn [andb negb].
    unfold OnNewConnection. cbn. rewrite Hp. cbn.
    repeat split; cbn.
    - intros k Hk. by rewrite lookup_insert_ne.
    - intros k Hk. by rewrite lookup_insert_ne.
    - destruct (m_server st) as [l p]. cbn in Hl, Hp. by subst. }
  set (st2 := env_receive socket data st1) in *.
  assert (H2 : same_elsewhere socket st1 st2 /\ m_server st2 = m_server st1).
  { subst st2. unfold env_receive.
    destruct (sockets st1 !! socket) as [x|]; [|done].
    destruct (isOpen x); [|done].
    repeat split; cbn; try done. intros k Hk. by rewrite lookup_insert_ne. }
  destruct (OnReadyRead_frame socket st2) as (H3 & Hsrv3).
  set (st3 := OnReadyRead socket st2) in *.
  destruct (disconnect_after socket st3 Hn) as (Hb4 & Hs4 & Hsrv4).
  destruct H1 as ([Hs1 Hb1] & Hsrv1), H2 as ([Hs2 Hb2] & Hsrv2), H3 as [Hs3 Hb3].
  split; [|split].
  - apply map_eq. intros k. rewrite Hb4.
    destruct (decide (k = socket)) as [->|Hk]; [by rewrite lookup_delete_eq, Hb|].
    rewrite lookup_delete_ne by done. by rewrite Hb3, Hb2, Hb1.
  - apply map_eq. intros k. rewrite Hs4.
    destruct (decide (k = socket)) as [->|Hk]; [by rewrite lookup_delete_eq, Hs|].
    rewrite lookup_delete_ne by done. by rewrite Hs3, Hs2, Hs1.
  - congruence.
Qed.


(** *** Stop and the connections already accepted *)

Lemma Stop_stop_with st : Stop st = stop_with (pendingConnections (m_server st)) st.
Proof. reflexivity. Qed.

Lemma stop_with_lookup pending socket st :
  ~ In socket pending ->
  sockets (stop_with pending st) !! socket = sockets st !! socket.
Proof.
  intros Hs. unfold stop_with. destruct (isListening _); [|done].
  cbn. by apply lookup_foldr_delete.
Qed.

Lemma stop_with_set_sockets pending socket x st :
  ~ In socket pending ->
  stop_with pending (set_sockets (<[socket := x]> (sockets st)) st)
  = set_sockets (<[socket := x]> (sockets (stop_with pending st))) (stop_with pending st).
Proof.
  intros Hs. unfold stop_with. cbn. destruct (isListening _); [|done]. cbn.
  rewrite foldr_delete_insert_notin; [done|]. by rewrite list_elem_of_In.
Qed.

Lemma SendResponse_sockets socket status ct content st :
  sockets (SendResponse socket status ct content st)
  = match sockets st !! socket with
    | Some x =>
        <[socket := {| isOpen := false; incoming := incoming x;
                       written := if isOpen x
                                  then written x ++ [response_bytes status ct content]
                                  else written x |}]> (sockets st)
    | None => sockets st
    end.
Proof.
  unfold SendResponse, socket_close, socket_write.
  destruct (sockets st !! socket) as [x|] eqn:Hx; [|by rewrite Hx].
  destruct (isOpen x); cbn.
  - rewrite lookup_insert_eq. cbn. by rewrite insert_insert_eq.
  - by rewrite Hx.
Qed.

Lemma stop_with_SendResponse pending socket status ct content st :
  ~ In socket pending ->
  SendResponse socket status ct content (stop_with pending st)
  = stop_with pending (SendResponse socket status ct content st).
Proof.
  intros Hs. unfold stop_with. rewrite SendResponse_server.
  destruct (isListening (m_server st)); [|done].
  apply HTTPServer_eq.
  - by rewrite SendResponse_server.
  - rewrite SendResponse_page_record. cbn. by rewrite SendResponse_page_record.
  - rewrite SendResponse_buffers. cbn. by rewrite SendResponse_buffers.
  - rewrite SendResponse_sockets. cbn. rewrite SendResponse_sockets.
    rewrite lookup_foldr_delete by done.
    destruct (sockets st !! socket) as [x|]; [|done].
    rewrite foldr_delete_insert_notin; [done|]. by rewrite list_elem_of_In.
  - rewrite SendResponse_calls. cbn. by rewrite SendResponse_calls.
Qed.

Lemma stop_with_HandleRequest pending socket request st :
  ~ In socket pending ->
  HandleRequest socket request (stop_with pending st)
  = stop_with pending (HandleRequest socket request st).
Proof.
  intros Hs. apply (HandleRequest_bystander socket (stop_with pending)).
  - intros st0. unfold stop_with. by destruct (isListening _).
  - intros st0. unfold socket_isOpen. by rewrite stop_with_lookup.
  - intros c st0. unfold stop_with. cbn. by destruct (isListening _).
  - intros. by apply stop_with_SendResponse.
Qed.

Lemma stop_with_set_buffers pending b st :
  stop_with pending (set_buffers b st) = set_buffers b (stop_with pending st).
Proof. unfold stop_with. cbn. by destruct (isListening _). Qed.

Lemma stop_with_buffers pending st :
  m_request_buffers (stop_with pending st) = m_request_buffers st.
Proof. unfold stop_with. by destruct (isListening _). Qed.

Lemma stop_with_readAll pending socket st :
  ~ In socket pending ->
  socket_readAll socket (stop_with pending st)
  = ((socket_readAll socket st).1, stop_with pending (socket_readAll socket st).2).
Proof.
  intros Hs. unfold socket_readAll. rewrite (stop_with_lookup pending socket st Hs).
  destruct (sockets st !! socket) as [x|]; [|done]. cbn [fst snd].
  by rewrite (stop_with_set_sockets pending socket _ st Hs).
Qed.

Lemma stop_with_OnReadyRead pending socket st :
  ~ In socket pending ->
  OnReadyRead socket (stop_with pending st) = stop_with pending (OnReadyRead socket st).
Proof.
  intros Hs. unfold OnReadyRead.
  destruct (Nat.eqb socket NULL); [done|].
  rewrite stop_with_buffers.
  destruct (negb _); [done|].
  rewrite (stop_with_readAll pending socket st Hs).
  pose proof (proj1 (proj2 (socket_readAll_frame socket st))) as Hb1.
  destruct (socket_readAll socket st) as [data st1]. cbn [fst snd] in *.
  destruct (isEmpty data); [done|].
  rewrite stop_with_buffers, <- stop_with_set_buffers.
  destruct (contains _ _); [|done].
  rewrite (stop_with_HandleRequest pending socket _ _ Hs), stop_with_buffers.
  destruct (bool_decide _); [|done].
  by rewrite stop_with_set_buffers.
Qed.

(** X11. Stopping the service does not cut off the clients already
    accepted. For a socket that is not among the pending connections, the
    read slot after [Stop] does what it would have done before [Stop]: the
    two orders give the same state, so the same response is written and
    the same recorder slot is invoked. *)
Theorem stop_spares_accepted socket st :
  ~ In socket (pendingConnections (m_server st)) ->
  OnReadyRead socket (Stop st) = Stop (OnReadyRead socket st)
  /\ calls (OnReadyRead socket (Stop st)) = calls (OnReadyRead socket st)
  /\ socket_written (OnReadyRead socket (Stop st)) socket
     = socket_written (OnReadyRead socket st) socket.
Proof.
  intros Hs.
  assert (E : OnReadyRead socket (Stop st) = Stop (OnReadyRead socket st)).
  { rewrite !Stop_stop_with.
    rewrite (proj2 (OnReadyRead_frame socket st)).
    by apply stop_with_OnReadyRead. }
  split; [exact E|]. rewrite E, !Stop_stop_with, (proj2 (OnReadyRead_frame socket st)).
  split.
  - unfold stop_with. by destruct (isListening _).
  - unfold socket_written. by rewrite stop_with_lookup.
Qed.


(** *** Lines and tokens: splitting undoes joining *)

Lemma free_of_cons c a s : free_of c (String a s) <-> a <> c /\ free_of c s.
Proof.
  unfold free_of, chars. cbn. split.
  - intros H. split; intros H'; apply H; [by left|by right].
  - intros [Ha Hs] [H|H]; [by apply Ha|by apply Hs].
Qed.

Lemma free_of_nil c : free_of c "".
Proof. unfold free_of, chars. cbn. by intros []. Qed.

Lemma free_of_app c a b : free_of c a -> free_of c b -> free_of c (a +:+ b).
Proof.
  induction a as [|x a IH]; intros Ha Hb; [done|].
  rewrite append_cons. apply free_of_cons. apply free_of_cons in Ha as [Hx Ha].
  split; [done|]. by apply IH.
Qed.

Lemma length_append (a b : string) :
  String.length (a +:+ b) = (String.length a + String.length b)%nat.
Proof. induction a as [|x a IH]; [done|]. rewrite append_cons. cbn. by rewrite IH. Qed.

Lemma fromByteArray_app a b :
  free_of NUL a -> fromByteArray (a +:+ b) = a +:+ fromByteArray b.
Proof.
  induction a as [|x a IH]; intros Ha; [done|].
  apply free_of_cons in Ha as [Hx Ha].
  rewrite !append_cons. cbn [fromByteArray].
  destruct (Ascii.eqb_spec x NUL) as [->|_]; [done|]. by rewrite IH.
Qed.

Lemma fromByteArray_free a : free_of NUL a -> fromByteArray a = a.
Proof.
  intros Ha. rewrite <- (append_nil_r a) at 1.
  rewrite fromByteArray_app by done. cbn. apply append_nil_r.
Qed.

Lemma startsWith_CRLF_free c s : c <> CR -> startsWith (String c s) CRLF = false.
Proof.
  intros Hc. unfold CRLF. rewrite startsWith_cons.
  destruct (Ascii.eqb_spec CR c) as [<-|_]; done.
Qed.

Lemma split_go_free a : free_of CR a -> split_go CRLF 0 a = (a, []).
Proof.
  induction a as [|x a IH]; intros Ha; [done|].
  apply free_of_cons in Ha as [Hx Ha].
  rewrite split_go_CRLF, startsWith_CRLF_free by done. by rewrite IH.
Qed.

Lemma split_go_line a b :
  free_of CR a ->
  split_go CRLF 0 (a +:+ CRLF +:+ b) = (a, (split_go CRLF 0 b).1 :: (split_go CRLF 0 b).2).
Proof.
  induction a as [|x a IH]; intros Ha.
  - change ("" +:+ CRLF +:+ b) with (String CR (String LF b)).
    rewrite split_go_CRLF. by cbn.
  - apply free_of_cons in Ha as [Hx Ha].
    rewrite append_cons, split_go_CRLF, startsWith_CRLF_free by done. by rewrite IH.
Qed.

Lemma split_join_lines ls :
  ls <> [] -> Forall (free_of CR) ls -> split (join_lines ls) CRLF = ls.
Proof.
  induction ls as [|l ls IH]; intros Hne Hf; [done|].
  apply Forall_cons in Hf as [Hl Hf].
  destruct ls as [|l2 ls].
  - cbn [join_lines]. unfold split. by rewrite split_go_free.
  - change (join_lines (l :: l2 :: ls)) with (l +:+ CRLF +:+ join_lines (l2 :: ls)).
    unfold split. rewrite split_go_line by done.
    f_equal. specialize (IH ltac:(done) Hf). unfold split in IH.
    by destruct (split_go CRLF 0 (join_lines (l2 :: ls))).
Qed.

Lemma free_of_CRLF_NUL : free_of NUL CRLF.
Proof. unfold free_of, chars. cbn. by intros [H|[H|[]]]. Qed.

Lemma join_lines_free c ls :
  free_of c CRLF -> Forall (free_of c) ls -> free_of c (join_lines ls).
Proof.
  intros Hc. induction ls as [|l ls IH]; intros Hf; [apply free_of_nil|].
  apply Forall_cons in Hf as [Hl Hf]. destruct ls as [|l2 ls]; [done|].
  change (join_lines (l :: l2 :: ls)) with (l +:+ CRLF +:+ join_lines (l2 :: ls)).
  apply free_of_app; [done|]. apply free_of_app; [done|]. by apply IH.
Qed.

(** X12. Splitting a buffer into lines undoes the joining of lines with
    CR LF: for a non-empty list of ASCII lines free of CR and NUL, the
    parser's list of lines of the joined buffer is the list itself. *)
Theorem lines_round_trip (ls : list string) :
  ls <> [] ->
  Forall (fun l => is_ascii l = true /\ free_of CR l /\ free_of NUL l) ls ->
  request_lines (join_lines ls) = ls.
Proof.
  intros Hne Hf. unfold request_lines.
  rewrite fromByteArray_free.
  - apply split_join_lines; [done|]. eapply Forall_impl; [exact Hf|]. by intros l (? & ? & ?).
  - apply join_lines_free; [apply free_of_CRLF_NUL|].
    eapply Forall_impl; [exact Hf|]. by intros l (? & ? & ?).
Qed.

Lemma split_go_space_free a : free_of " "%char a -> split_go " " 0 a = (a, []).
Proof.
  induction a as [|x a IH]; intros Ha; [done|].
  apply free_of_cons in Ha as [Hx Ha].
  rewrite split_go_space. destruct (Ascii.eqb_spec " " x) as [<-|_]; [done|].
  by rewrite IH.
Qed.

Lemma split_go_token a b :
  free_of " "%char a ->
  split_go " " 0 (a +:+ " " +:+ b) = (a, (split_go " " 0 b).1 :: (split_go " " 0 b).2).
Proof.
  induction a as [|x a IH]; intros Ha.
  - change ("" +:+ " " +:+ b) with (String " " b). by rewrite split_go_space.
  - apply free_of_cons in Ha as [Hx Ha].
    rewrite append_cons, split_go_space.
    destruct (Ascii.eqb_spec " " x) as [<-|_]; [done|]. by rewrite IH.
Qed.

Lemma split_token a b :
  free_of " "%char a -> split (a +:+ " " +:+ b) " " = a :: split b " ".
Proof.
  intros Ha. unfold split. rewrite split_go_token by done.
  by destruct (split_go " " 0 b).
Qed.

Lemma split_last a : free_of " "%char a -> split a " " = [a].
Proof. intros Ha. unfold split. by rewrite split_go_space_free. Qed.

(** X13. A request line [METHOD SP TARGET SP VERSION] followed by CR LF and
    anything at all is taken apart into exactly its three tokens, whatever
    the method and the version are, provided the tokens are ASCII and hold
    no space, CR or NUL; the path the dispatch sees is the target without
    one leading slash (a target without a leading slash is taken as it
    is). *)
Theorem request_line_round_trip (M T V rest : string) :
  is_ascii M = true -> is_ascii T = true -> is_ascii V = true ->
  free_of " "%char M -> free_of CR M -> free_of NUL M ->
  free_of " "%char T -> free_of CR T -> free_of NUL T ->
  free_of " "%char V -> free_of CR V -> free_of NUL V ->
  let request := (M +:+ " " +:+ T +:+ " " +:+ V) +:+ CRLF +:+ rest in
  request_line request = [M; T; V]
  /\ (forall p, T = "/" +:+ p -> normalized_path request = p)
  /\ (startsWith T "/" = false -> normalized_path request = T).
Proof.
  intros _ _ _.
  intros HM1 HM2 HM3 HT1 HT2 HT3 HV1 HV2 HV3 request.
  assert (Hsp_CR : free_of CR " ") by (unfold free_of, chars; cbn; by intros [H|[]]).
  assert (Hsp_NUL : free_of NUL " ") by (unfold free_of, chars; cbn; by intros [H|[]]).
  assert (Hline_CR : free_of CR (M +:+ " " +:+ T +:+ " " +:+ V))
    by (repeat apply free_of_app; done).
  assert (Hline_NUL : free_of NUL (M +:+ " " +:+ T +:+ " " +:+ V))
    by (repeat apply free_of_app; done).
  assert (Hrl : request_line request = [M; T; V]).
  { unfold request_line, request_lines. subst request.
    rewrite fromByteArray_app by done.
    rewrite (fromByteArray_app CRLF) by apply free_of_CRLF_NUL.
    unfold split at 2. rewrite split_go_line by done. cbn [nth].
    rewrite split_token by done. rewrite split_token by done.
    by rewrite split_last. }
  split; [exact Hrl|]. unfold normalized_path. rewrite Hrl. cbn [nth].
  split.
  - intros p ->. by cbn.
  - by intros ->.
Qed.


(** *** The body: what follows the first blank line *)

Lemma startsWith_terminator_CRLF rest :
  startsWith (CRLF +:+ rest) (CRLF +:+ CRLF) = startsWith rest CRLF.
Proof.
  change (CRLF +:+ rest) with (String CR (String LF rest)).
  change (CRLF +:+ CRLF) with (String CR (String LF CRLF)).
  rewrite !startsWith_cons, !Ascii.eqb_refl. done.
Qed.

(** Where the first blank line is, seen from a line free of CR. *)
Lemma indexOf_from_line line rest : forall i,
  free_of CR line ->
  indexOf_from (CRLF +:+ CRLF) (line +:+ CRLF +:+ rest) i
  = if startsWith rest CRLF then i + size line
    else indexOf_from (CRLF +:+ CRLF) rest (i + size line + 2).
Proof.
  induction line as [|c line IH]; intros i Hf.
  - change ("" +:+ CRLF +:+ rest) with (CRLF +:+ rest).
    rewrite indexOf_from_eq, startsWith_terminator_CRLF.
    unfold size. cbn [String.length].
    destruct (startsWith rest CRLF); [lia|].
    change (CRLF +:+ rest) with (String CR (String LF rest)). cbv iota.
    rewrite (indexOf_from_eq _ (String LF rest)).
    change (startsWith (String LF rest) (CRLF +:+ CRLF)) with false. cbv iota.
    f_equal. lia.
  - apply free_of_cons in Hf as [Hc Hf].
    rewrite append_cons, indexOf_from_eq.
    change (CRLF +:+ CRLF) with (String CR (String LF CRLF)) at 1.
    rewrite startsWith_cons.
    destruct (Ascii.eqb_spec CR c) as [<-|_]; [done|]. cbn [andb].
    rewrite IH by done. unfold size. cbn [String.length].
    destruct (startsWith rest CRLF); [lia|]. f_equal. lia.
Qed.

Lemma startsWith_line_CRLF l rest :
  l <> "" -> free_of CR l -> startsWith (l +:+ rest) CRLF = false.
Proof.
  destruct l as [|c l]; [done|]. intros _ Hf. apply free_of_cons in Hf as [Hc _].
  rewrite append_cons. by apply startsWith_CRLF_free.
Qed.

Lemma indexOf_from_join ls body : forall i,
  ls <> [] ->
  Forall (fun l => l <> "" /\ free_of CR l) ls ->
  indexOf_from (CRLF +:+ CRLF) (join_lines ls +:+ (CRLF +:+ CRLF) +:+ body) i
  = i + size (join_lines ls).
Proof.
  induction ls as [|l ls IH]; intros i Hne Hf; [done|].
  apply Forall_cons in Hf as [[Hl Hc] Hf].
  destruct ls as [|l2 ls].
  - change (join_lines [l]) with l.
    change (l +:+ (CRLF +:+ CRLF) +:+ body) with (l +:+ CRLF +:+ (CRLF +:+ body)).
    rewrite indexOf_from_line by done.
    change (startsWith (CRLF +:+ body) CRLF) with (startsWith (CRLF +:+ body) CRLF).
    by rewrite startsWith_app.
  - change (join_lines (l :: l2 :: ls)) with (l +:+ CRLF +:+ join_lines (l2 :: ls)).
    rewrite !append_assoc. rewrite indexOf_from_line by done.
    assert (Hs : startsWith (join_lines (l2 :: ls) +:+ CRLF +:+ CRLF +:+ body) CRLF = false).
    { apply Forall_cons in Hf as [[Hl2 Hc2] _].
      destruct ls as [|l3 ls].
      - change (join_lines [l2]) with l2. by apply startsWith_line_CRLF.
      - change (join_lines (l2 :: l3 :: ls)) with (l2 +:+ CRLF +:+ join_lines (l3 :: ls)).
        rewrite append_assoc. by apply startsWith_line_CRLF. }
    rewrite Hs.
    change (join_lines (l2 :: ls) +:+ CRLF +:+ CRLF +:+ body)
      with (join_lines (l2 :: ls) +:+ (CRLF +:+ CRLF) +:+ body).
    rewrite IH by done. unfold size. rewrite !length_append. cbn [String.length CRLF]. lia.
Qed.

Lemma request_body_at head body :
  indexOf (head +:+ (CRLF +:+ CRLF) +:+ body) (CRLF +:+ CRLF) = size head ->
  request_body (head +:+ (CRLF +:+ CRLF) +:+ body) = body.
Proof.
  intros Hi. unfold request_body. rewrite Hi. unfold size, mid.
  rewrite !length_append.
  change (String.length (CRLF +:+ CRLF)) with 4%nat.
  assert (E : Z.to_nat (Z.of_nat (String.length head) + 4)
              = String.length (head +:+ (CRLF +:+ CRLF))).
  { rewrite length_append. change (String.length (CRLF +:+ CRLF)) with 4%nat. lia. }
  rewrite E, <- (append_assoc head (CRLF +:+ CRLF) body), drop_app.
  destruct body as [|c body]; [by destruct (_ && _)|].
  match goal with
  | |- context [?a <=? ?b] => destruct (Z.leb_spec a b) as [_|]; [|lia]
  | |- _ => idtac
  end.
  match goal with
  | |- context [?a <? ?b] => destruct (Z.ltb_spec a b) as [_|Hge]; [done|]
  end.
  change (String.length CRLF) with 2%nat in Hge. cbn [String.length] in Hge. lia.
Qed.

Lemma request_body_join (ls : list string) (body : string) :
  ls <> [] ->
  Forall (fun l => l <> "" /\ free_of CR l) ls ->
  request_body (join_lines ls +:+ (CRLF +:+ CRLF) +:+ body) = body.
Proof.
  intros Hne Hf. apply request_body_at.
  unfold indexOf. rewrite indexOf_from_join by done. lia.
Qed.

(** X14. The body of a request is exactly what follows the first blank
    line: for a head made of non-empty lines free of CR, joined by CR LF,
    then the blank line, then any bytes at all, the body found is those
    bytes, the empty body included. *)
Theorem body_after_blank_line (ls : list string) (body : string) :
  ls <> [] ->
  Forall (fun l => l <> "" /\ free_of CR l) ls ->
  request_body (join_lines ls +:+ terminator +:+ body) = body.
Proof. apply request_body_join. Qed.


(** *** The response, read back *)

Lemma string_of_uint_free d : free_of CR (NilEmpty.string_of_uint d).
Proof.
  induction d; cbn [NilEmpty.string_of_uint];
    [apply free_of_nil|..]; (apply free_of_cons; split; [discriminate|done]).
Qed.

Lemma arg_int_free z : free_of CR (arg_int z).
Proof.
  unfold arg_int, NilZero.string_of_int, NilZero.string_of_uint.
  destruct (Z.to_int z) as [d|d].
  - destruct d; try apply string_of_uint_free.
    apply free_of_cons. split; [discriminate|apply free_of_nil].
  - apply free_of_cons. split; [discriminate|].
    destruct d; try apply string_of_uint_free.
    apply free_of_cons. split; [discriminate|apply free_of_nil].
Qed.

Lemma literal_free (s : string) :
  forallb (fun c => negb (Ascii.eqb c CR)) (chars s) = true -> free_of CR s.
Proof.
  induction s as [|c s IH]; [intros _; apply free_of_nil|].
  cbn. intros H. apply andb_true_iff in H as [Hc Hs].
  apply free_of_cons. split; [|by apply IH].
  apply negb_true_iff in Hc. by apply Ascii.eqb_neq in Hc.
Qed.

Lemma statusText_free status : free_of CR (statusText status).
Proof.
  unfold statusText.
  repeat match goal with
         | |- context [?a =? ?b] => destruct (a =? b)
         end; by apply literal_free.
Qed.

Lemma response_bytes_join status ct content :
  response_bytes status ct content
  = join_lines ["HTTP/1.1 " +:+ arg_int status +:+ " " +:+ statusText status;
                "Content-Type: " +:+ fromByteArray ct;
                "Content-Length: " +:+ arg_int (size content);
                "Connection: close";
                "Access-Control-Allow-Origin: *"]
    +:+ (CRLF +:+ CRLF) +:+ content.
Proof.
  unfold response_bytes. cbn zeta. cbn [join_lines].
  change ("" +:+ ?x) with x. by rewrite !append_assoc.
Qed.

(** X15. A response can be read back with the service's own parser. When
    the content type holds no CR, the first line of the assembled message
    is the status line, and the body found after the first blank line is
    exactly the content that was sent: nothing of the head leaks into the
    body and nothing of the body is lost, whatever bytes the content
    holds. *)
Theorem response_reads_back status content_type content :
  free_of CR (fromByteArray content_type) ->
  let response := response_bytes status content_type content in
  first_line response = "HTTP/1.1 " +:+ arg_int status +:+ " " +:+ statusText status
  /\ request_body response = content.
Proof.
  intros Hct response. subst response. rewrite response_bytes_join.
  assert (H1 : free_of CR ("HTTP/1.1 " +:+ arg_int status +:+ " " +:+ statusText status)).
  { apply free_of_app; [by apply literal_free|].
    apply free_of_app; [apply arg_int_free|].
    apply free_of_app; [by apply literal_free|apply statusText_free]. }
  set (L1 := "HTTP/1.1 " +:+ arg_int status +:+ " " +:+ statusText status) in *.
  split.
  - rewrite first_line_eq.
    change (join_lines (?l :: ?l2 :: ?ls)) with (l +:+ CRLF +:+ join_lines (l2 :: ls)).
    rewrite !append_assoc. by rewrite split_go_line.
  - apply request_body_join; [done|].
    apply Forall_cons; split; [split; [by apply append_nonempty|exact H1]|].
    apply Forall_cons; split;
      [split; [by apply append_nonempty
              |apply free_of_app; [by apply literal_free|done]]|].
    apply Forall_cons; split;
      [split; [by apply append_nonempty
              |apply free_of_app; [by apply literal_free|apply arg_int_free]]|].
    apply Forall_cons; split; [split; [done|by apply literal_free]|].
    apply Forall_cons; split; [split; [done|by apply literal_free]|].
    by apply Forall_nil.
Qed.


(** *** The header map holds normal forms only *)

Lemma toLower_char_idem c : toLower_char (toLower_char c) = toLower_char c.
Proof. by destruct c as [[] [] [] [] [] [] [] []]. Qed.

Lemma isSpace_toLower_char c : isSpace (toLower_char c) = isSpace c.
Proof. by destruct c as [[] [] [] [] [] [] [] []]. Qed.

Lemma toLower_idem s : toLower (toLower s) = toLower s.
Proof.
  induction s as [|c s IH]; [done|]. cbn [toLower]. by rewrite toLower_char_idem, IH.
Qed.

Lemma trim_left_toLower s : trim_left (toLower s) = toLower (trim_left s).
Proof.
  induction s as [|c s IH]; [done|]. cbn [toLower trim_left].
  rewrite isSpace_toLower_char. by destruct (isSpace c).
Qed.

Lemma isEmpty_toLower s : isEmpty (toLower s) = isEmpty s.
Proof. by destruct s. Qed.

Lemma trim_right_toLower s : trim_right (toLower s) = toLower (trim_right s).
Proof.
  induction s as [|c s IH]; [done|]. cbn [toLower trim_right].
  rewrite isSpace_toLower_char, IH, isEmpty_toLower.
  by destruct (isSpace c && isEmpty (trim_right s)).
Qed.

Lemma trimmed_toLower s : trimmed (toLower s) = toLower (trimmed s).
Proof. unfold trimmed. by rewrite trim_left_toLower, trim_right_toLower. Qed.

Lemma trim_right_idem s : trim_right (trim_right s) = trim_right s.
Proof.
  induction s as [|c s IH]; [done|]. cbn [trim_right].
  destruct (isSpace c && isEmpty (trim_right s)) eqn:E; [done|].
  cbn [trim_right]. by rewrite IH, E.
Qed.

Lemma no_lead_trim_left s : no_lead (trim_left s).
Proof.
  induction s as [|c s IH]; [done|]. cbn [trim_left].
  by destruct (isSpace c) eqn:E.
Qed.

Lemma no_lead_trim_right s : no_lead s -> no_lead (trim_right s).
Proof.
  destruct s as [|c s]; [done|]. cbn [no_lead trim_right]. intros H. by rewrite H.
Qed.

Lemma trim_left_no_lead s : no_lead s -> trim_left s = s.
Proof. destruct s as [|c s]; [done|]. cbn. by intros ->. Qed.

Lemma trimmed_idem s : trimmed (trimmed s) = trimmed s.
Proof.
  unfold trimmed.
  rewrite (trim_left_no_lead (trim_right (trim_left s)))
    by apply no_lead_trim_right, no_lead_trim_left.
  apply trim_right_idem.
Qed.

Lemma parse_headers_normal lines : forall h,
  map_Forall normal_header h -> map_Forall normal_header (parse_headers lines h).
Proof.
  induction lines as [|line lines IH]; intros h Hh; [done|].
  cbn [parse_headers]. destruct (isEmpty line); [done|].
  destruct (0 <? indexOf_char line ":"); [|by apply IH].
  apply IH. apply map_Forall_insert_2; [|done].
  unfold normal_header.
  by rewrite toLower_idem, trimmed_toLower, !trimmed_idem.
Qed.

(** X16. Whatever the request, every entry of its header map is in normal
    form: the key is lower-case and has no white space at either end, and
    the value has no white space at either end. So a lookup under a key
    that is not lower-case finds nothing. *)
Theorem headers_are_normalised request k v :
  request_headers request !! k = Some v ->
  toLower k = k /\ trimmed k = k /\ trimmed v = v
  /\ (forall k', toLower k' <> k' -> request_headers request !! k' = None).
Proof.
  assert (H : map_Forall normal_header (request_headers request)).
  { unfold request_headers. apply parse_headers_normal. apply map_Forall_empty. }
  intros Hk. destruct (H k v Hk) as (H1 & H2 & H3).
  repeat split; try done.
  intros k' Hk'. destruct (request_headers request !! k') as [v'|] eqn:E; [|done].
  by destruct (H k' v' E) as (H1' & _).
Qed.

(** *** Envelopes *)

(** X17. The two envelopes can be told apart and give their payload back:
    a success envelope never equals an error envelope, it has no [error]
    field and exactly the data it was built from; an error envelope has no
    [data] field and exactly the message it was built from. *)
Theorem envelopes_tell_apart (data : QJsonObject) (message : string) :
  CreateSuccessResponse data <> CreateErrorResponse message
  /\ CreateSuccessResponse data !! "success" = Some (JBool true)
  /\ CreateSuccessResponse data !! "data" = Some (JObject data)
  /\ CreateSuccessResponse data !! "error" = None
  /\ CreateErrorResponse message !! "success" = Some (JBool false)
  /\ CreateErrorResponse message !! "error" = Some (JString message)
  /\ CreateErrorResponse message !! "data" = None
  /\ (forall data', CreateSuccessResponse data = CreateSuccessResponse data' -> data = data')
  /\ (forall message', CreateErrorResponse message = CreateErrorResponse message' ->
                       message = message').
Proof.
  rewrite CreateSuccessResponse_envelope, CreateErrorResponse_envelope.
  split; [apply success_not_error|].
  unfold success_envelope, error_envelope.
  split; [apply lookup_insert_eq|].
  split; [by rewrite lookup_insert_ne, lookup_singleton_eq|].
  split; [by rewrite lookup_insert_ne, lookup_singleton_ne|].
  split; [apply lookup_insert_eq|].
  split; [by rewrite lookup_insert_ne, lookup_singleton_eq|].
  split; [by rewrite lookup_insert_ne, lookup_singleton_ne|].
  split.
  - intros data'. rewrite CreateSuccessResponse_envelope. apply success_envelope_inj.
  - intros message'. rewrite CreateErrorResponse_envelope. apply error_envelope_inj.
Qed.


(** *** Start *)

(** [Start] reports success exactly when the service was not listening
    and the port was granted, and then the service listens. When it reports
    failure nothing has changed; in particular a second [Start] on a
    listening service fails and leaves it listening. In no case does
    [Start] touch the connection table, a socket, the recorder or the
    trace. *)
Lemma start_outcome granted port st :
  let ok := (Start granted port st).1 in
  let st' := (Start granted port st).2 in
  (ok = true <-> isListening (m_server st) = false /\ granted = true)
  /\ (ok = true -> isListening (m_server st') = true)
  /\ (ok = false -> st' = st)
  /\ m_request_buffers st' = m_request_buffers st
  /\ sockets st' = sockets st
  /\ calls st' = calls st
  /\ m_page_record st' = m_page_record st.
Proof.
  unfold Start, QTcpServer_listen.
  destruct (isListening (m_server st)) eqn:Hl; [|destruct granted]; cbn;
    repeat split; try done; by intros [? ?].
Qed.


(** *** When the disconnect signal comes from inside the close *)

Lemma disconnect_rest socket st :
  m_page_record (OnDisconnected socket st) = m_page_record st
  /\ calls (OnDisconnected socket st) = calls st.
Proof.
  unfold OnDisconnected. destruct (Nat.eqb socket NULL); [done|].
  by destruct (bool_decide _).
Qed.

Lemma OnDisconnected_set_buffers socket b1 b2 st :
  socket <> NULL ->
  delete socket b1 = delete socket b2 ->
  OnDisconnected socket (set_buffers b1 st) = OnDisconnected socket (set_buffers b2 st).
Proof.
  intros Hn Hd.
  destruct (disconnect_after socket (set_buffers b1 st) Hn) as (Hb1 & Hs1 & Hsrv1).
  destruct (disconnect_after socket (set_buffers b2 st) Hn) as (Hb2 & Hs2 & Hsrv2).
  destruct (disconnect_rest socket (set_buffers b1 st)) as (Hp1 & Hc1).
  destruct (disconnect_rest socket (set_buffers b2 st)) as (Hp2 & Hc2).
  apply HTTPServer_eq.
  - by rewrite Hsrv1, Hsrv2.
  - by rewrite Hp1, Hp2.
  - rewrite Hb1, Hb2. exact Hd.
  - by rewrite Hs1, Hs2.
  - by rewrite Hc1, Hc2.
Qed.

(** X19. It makes no difference whether the disconnect signal of an
    answered connection is delivered from inside the close, before the read
    slot looks at the connection table again, or after the read slot has
    returned. On a registered open socket whose unread bytes complete the
    blank line, the read slot with the disconnect slot run inside the
    close ends in the same state as the read slot followed by the
    disconnect slot: the guarded clearing of the buffer is what makes the
    first order safe. *)
Theorem disconnect_inside_close socket st b s :
  socket <> NULL ->
  m_request_buffers st !! socket = Some b ->
  sockets st !! socket = Some s ->
  isOpen s = true ->
  incoming s <> "" ->
  contains (b +:+ incoming s) terminator = true ->
  OnReadyRead_sync socket st = OnDisconnected socket (OnReadyRead socket st)
  /\ m_request_buffers (OnReadyRead_sync socket st) !! socket = None.
Proof.
  intros Hn Hb Hs Ho Hi Hc. unfold terminator in Hc.
  assert (E : OnReadyRead_sync socket st = OnDisconnected socket (OnReadyRead socket st)).
  { rewrite (OnReadyRead_eq socket st b s Hn Hb Hs Hi), Hc.
    unfold OnReadyRead_sync.
    pose proof Hn as Hn'. apply Nat.eqb_neq in Hn'. rewrite Hn', Hb.
    rewrite bool_decide_eq_true_2 by by eexists. cbn [negb].
    unfold socket_readAll. rewrite Hs. cbn [snd].
    rewrite (isEmpty_false _ Hi). cbn. rewrite Hb. cbn [default]. unfold id. rewrite Hc.
    unfold socket_isOpen. cbn. rewrite lookup_insert_eq, Ho. cbn [isOpen].
    match goal with
    | |- context [HandleRequest socket ?r ?X] =>
        set (st2 := X);
        assert (Hd : m_request_buffers (OnDisconnected socket (HandleRequest socket r st2))
                       !! socket = None)
          by (rewrite (proj1 (disconnect_after socket _ Hn)); apply lookup_delete_eq)
    end.
    rewrite Hd. rewrite bool_decide_eq_false_2 by by intros [? ?].
    subst st2.
    match goal with
    | |- OnDisconnected _ (HandleRequest _ ?r ?X) = OnDisconnected _ (set_buffers ?B0 (HandleRequest _ _ ?R)) =>
        change X with (set_buffers (<[socket := r]> (m_request_buffers st)) R)
    end.
    rewrite HandleRequest_set_buffers.
    apply OnDisconnected_set_buffers; [done|]. by rewrite !delete_insert_eq. }
  split; [exact E|]. rewrite E.
  rewrite (proj1 (disconnect_after socket _ Hn)). apply lookup_delete_eq.
Qed.

End Service.

(** ** The theorems at work on concrete requests *)

Lemma start_or_resume_witness :
  let st := connected Fake.idle in
  let st' := HandleRequest Fake.exec Fake.toJson Fake.fromJson 1
               (bare_request "POST /start HTTP/1.1") st in
  exists envelope,
    replied st st' 1 200 "application/json" (Fake.toJson envelope)
    /\ (envelope = success_envelope {["action" := JString "resumed"]}
        /\ calls st' = (calls st ++ [OnRecordStartPause])%list
        <-> IsPaused Fake.idle = true)
    /\ (envelope = success_envelope {["action" := JString "started"]}
        /\ calls st' = (calls st ++ [OnRecordStart])%list
        <-> IsPaused Fake.idle = false /\ IsRecording Fake.idle = false)
    /\ (IsPaused Fake.idle = false -> IsRecording Fake.idle = true ->
        envelope = error_envelope "Already recording"
        /\ calls st' = calls st /\ m_page_record st' = Some Fake.idle).
Proof.
  apply (start_or_resume Fake.exec Fake.toJson Fake.fromJson 1
           (bare_request "POST /start HTTP/1.1") (connected Fake.idle) Fake.idle).
  - reflexivity.
  - left. reflexivity.
  - reflexivity.
Defined.

Lemma pause_save_cancel_witness :
  let request := bare_request "GET /record/save HTTP/1.1" in
  let st := connected Fake.paused in
  let path := normalized_path request in
  let st' := HandleRequest Fake.exec Fake.toJson Fake.fromJson 1 request st in
  (path = "pause" \/ path = "record/pause" ->
   exists envelope,
     replied st st' 1 200 "application/json" (Fake.toJson envelope)
     /\ (calls st' = (calls st ++ [OnRecordPause])%list
         <-> IsRecording Fake.paused = true /\ IsPaused Fake.paused = false)
     /\ (IsRecording Fake.paused = true /\ IsPaused Fake.paused = false ->
         envelope = success_envelope ∅)
     /\ (~ (IsRecording Fake.paused = true /\ IsPaused Fake.paused = false) ->
         envelope = error_envelope "Not recording or already paused"
         /\ calls st' = calls st /\ m_page_record st' = Some Fake.paused))
  /\ (path = "save" \/ path = "record/save" ->
      exists envelope,
        replied st st' 1 200 "application/json" (Fake.toJson envelope)
        /\ (calls st' = (calls st ++ [OnRecordSave false])%list
            <-> IsRecording Fake.paused = true)
        /\ (IsRecording Fake.paused = true -> envelope = success_envelope ∅)
        /\ (IsRecording Fake.paused = false ->
            envelope = error_envelope "Not recording"
            /\ calls st' = calls st /\ m_page_record st' = Some Fake.paused))
  /\ (path = "cancel" \/ path = "record/cancel" ->
      exists envelope,
        replied st st' 1 200 "application/json" (Fake.toJson envelope)
        /\ (calls st' = (calls st ++ [OnRecordCancel false])%list
            <-> IsRecording Fake.paused = true)
        /\ (IsRecording Fake.paused = true -> envelope = success_envelope ∅)
        /\ (IsRecording Fake.paused = false ->
            envelope = error_envelope "Not recording"
            /\ calls st' = calls st /\ m_page_record st' = Some Fake.paused)).
Proof.
  apply (pause_save_cancel Fake.exec Fake.toJson Fake.fromJson 1
           (bare_request "GET /record/save HTTP/1.1") (connected Fake.paused) Fake.paused).
  - reflexivity.
  - reflexivity.
Defined.

Lemma status_snapshot_witness :
  let st := connected Fake.recording in
  let st' := HandleRequest Fake.exec Fake.toJson Fake.fromJson 1
               (bare_request "GET /status HTTP/1.1") st in
  replied st st' 1 200 "application/json"
    (Fake.toJson (success_envelope
       {[ "is_recording" := JBool (IsRecording Fake.recording);
          "is_paused" := JBool (IsPaused Fake.recording);
          "file_name" := JString (GetCurrentFileName Fake.recording);
          "file_size" := JString (number (GetCurrentFileSize Fake.recording));
          "total_time" := JNumber (GetTotalTime Fake.recording) ]}))
  /\ read_unsigned (number (GetCurrentFileSize Fake.recording))
     = Some (GetCurrentFileSize Fake.recording)
  /\ calls st' = calls st
  /\ m_page_record st' = Some Fake.recording.
Proof.
  apply (status_snapshot Fake.exec Fake.toJson Fake.fromJson 1
           (bare_request "GET /status HTTP/1.1") (connected Fake.recording) Fake.recording).
  - reflexivity.
  - left. reflexivity.
  - reflexivity.
Defined.

(** C4 as worded fails: a listening service with one accepted client is
    stopped, and the client's entry is still in the connection table, with
    its socket open. *)
Lemma stop_keeps_connections :
  let st := connected Fake.idle in
  isListening (m_server st) = true
  /\ m_request_buffers (Stop st) !! 1%nat = Some ""
  /\ socket_isOpen (Stop st) 1 = true
  /\ m_request_buffers (Stop st) <> ∅.
Proof.
  repeat split; try reflexivity.
  intros H. apply (f_equal (fun m => m !! 1%nat)) in H. vm_compute in H. discriminate.
Qed.

(** [Stop] on a listening service with one accepted client (socket 1) and
    one client still pending (socket 2): the pending one is dropped, the
    accepted one keeps its socket and its entry. *)
Lemma stop_closes_listener_only_witness :
  let st := env_connect 2 (connected Fake.idle) in
  pendingConnections (m_server st) = [2%nat]
  /\ pendingConnections (m_server (Stop st)) = []
  /\ sockets (Stop st) !! 2%nat = None
  /\ sockets (Stop st) !! 1%nat = sockets st !! 1%nat
  /\ m_request_buffers (Stop st) = m_request_buffers st.
Proof.
  destruct (stop_closes_listener_only (env_connect 2 (connected Fake.idle)))
    as (_ & Hp & Hb & Hk & _).
  destruct (Hp eq_refl) as [Hnil Hgone].
  split; [reflexivity|]. split; [exact Hnil|].
  split; [apply Hgone; left; reflexivity|].
  split; [|exact Hb].
  apply Hk. intros [H|[]]. discriminate H.
Defined.

Lemma unknown_path_not_found_witness :
  let st := connected Fake.recording in
  let st' := HandleRequest Fake.exec Fake.toJson Fake.fromJson 1
               (bare_request "GET /stop HTTP/1.1") st in
  replied st st' 1 404 "text/plain" "Not Found"
  /\ calls st' = calls st
  /\ m_page_record st' = m_page_record st.
Proof.
  apply (unknown_path_not_found Fake.exec Fake.toJson Fake.fromJson 1
           (bare_request "GET /stop HTTP/1.1") (connected Fake.recording)).
  - reflexivity.
  - vm_compute. intuition discriminate.
  - reflexivity.
Defined.

Lemma malformed_request_line_witness :
  let st := connected Fake.recording in
  let st' := HandleRequest Fake.exec Fake.toJson Fake.fromJson 1
               (bare_request "GARBAGE") st in
  replied st st' 1 400 "text/plain" "Bad Request"
  /\ st' = SendResponse 1 400 "text/plain" "Bad Request" st
  /\ calls st' = calls st
  /\ m_page_record st' = m_page_record st.
Proof.
  apply (malformed_request_line Fake.exec Fake.toJson Fake.fromJson 1
           (bare_request "GARBAGE") (connected Fake.recording)).
  - discriminate.
  - reflexivity.
  - vm_compute. lia.
Defined.

Lemma legacy_api_route_witness :
  let request := "POST /api/record/save HTTP/1.1" +:+ CRLF
                 +:+ "Content-Type: application/json" +:+ CRLF +:+ CRLF +:+ "{}" in
  let st := connected Fake.recording in
  let st' := HandleRequest Fake.exec Fake.toJson Fake.fromJson 1 request st in
  st' = legacy_outcome Fake.exec Fake.toJson 1 "record/save" st
  /\ (forall json, HandleAPI Fake.exec Fake.toJson 1 "record/save" json st
                   = legacy_outcome Fake.exec Fake.toJson 1 "record/save" st)
  /\ (~ In "record/save" legacy_suffixes ->
      replied st st' 1 200 "application/json"
        (Fake.toJson (error_envelope "Unknown API endpoint"))
      /\ calls st' = calls st
      /\ m_page_record st' = m_page_record st).
Proof.
  apply (legacy_api_route Fake.exec Fake.toJson Fake.fromJson 1
           ("POST /api/record/save HTTP/1.1" +:+ CRLF
            +:+ "Content-Type: application/json" +:+ CRLF +:+ CRLF +:+ "{}")
           (connected Fake.recording) "record/save").
  - reflexivity.
  - reflexivity.
  - vm_compute. intuition discriminate.
Defined.



(** *** The strings layer on examples *)

Example split_lines :
  split ("GET / HTTP/1.1" +:+ CRLF +:+ "Host: x" +:+ CRLF +:+ CRLF +:+ "{}") CRLF
  = ["GET / HTTP/1.1"; "Host: x"; ""; "{}"].
Proof. reflexivity. Qed.

Example split_tokens : split "GET  /a b" " " = ["GET"; ""; "/a"; "b"].
Proof. reflexivity. Qed.

Example split_empty : split "" CRLF = [""].
Proof. reflexivity. Qed.

Example trimmed_ex : trimmed "  a b  " = "a b" /\ toLower "Host-X1" = "host-x1".
Proof. split; reflexivity. Qed.

Example number_ex : number 1048576 = "1048576" /\ arg_int (-7) = "-7" /\ arg_int 0 = "0".
Proof. repeat split; reflexivity. Qed.

(** *** The end-to-end scenarios of the specification *)

(** In each scenario the client on socket [1] of a freshly connected
    service sends its request and the read slot runs. *)

Example scenario_index :
  socket_written (OnReadyRead Fake.exec Fake.toJson Fake.fromJson 1 (env_receive 1 (bare_request "GET / HTTP/1.1") (connected Fake.idle))) 1
  = [response_bytes 200 "text/plain" index_content]
  /\ calls (OnReadyRead Fake.exec Fake.toJson Fake.fromJson 1 (env_receive 1 (bare_request "GET / HTTP/1.1") (connected Fake.idle))) = [].
Proof. split; reflexivity. Qed.

Example scenario_start_from_idle :
  socket_written (OnReadyRead Fake.exec Fake.toJson Fake.fromJson 1 (env_receive 1 (bare_request "POST /start HTTP/1.1") (connected Fake.idle))) 1
  = [response_bytes 200 "application/json"
       (Fake.toJson (success_envelope {["action" := JString "started"]}))]
  /\ calls (OnReadyRead Fake.exec Fake.toJson Fake.fromJson 1 (env_receive 1 (bare_request "POST /start HTTP/1.1") (connected Fake.idle))) = [OnRecordStart].
Proof. split; reflexivity. Qed.

Example scenario_resume_from_paused :
  socket_written (OnReadyRead Fake.exec Fake.toJson Fake.fromJson 1 (env_receive 1 (bare_request "GET /record/start HTTP/1.1") (connected Fake.paused))) 1
  = [response_bytes 200 "application/json"
       (Fake.toJson (success_envelope {["action" := JString "resumed"]}))]
  /\ calls (OnReadyRead Fake.exec Fake.toJson Fake.fromJson 1 (env_receive 1 (bare_request "GET /record/start HTTP/1.1") (connected Fake.paused)))
     = [OnRecordStartPause].
Proof. split; reflexivity. Qed.

Example scenario_pause_while_idle :
  socket_written (OnReadyRead Fake.exec Fake.toJson Fake.fromJson 1 (env_receive 1 (bare_request "GET /pause HTTP/1.1") (connected Fake.idle))) 1
  = [response_bytes 200 "application/json"
       (Fake.toJson (error_envelope "Not recording or already paused"))]
  /\ calls (OnReadyRead Fake.exec Fake.toJson Fake.fromJson 1 (env_receive 1 (bare_request "GET /pause HTTP/1.1") (connected Fake.idle))) = [].
Proof. split; reflexivity. Qed.

Example scenario_malformed :
  socket_written (OnReadyRead Fake.exec Fake.toJson Fake.fromJson 1 (env_receive 1 (bare_request "GARBAGE") (connected Fake.idle))) 1
  = ["HTTP/1.1 400 Bad Request" +:+ CRLF
     +:+ "Content-Type: text/plain" +:+ CRLF
     +:+ "Content-Length: 11" +:+ CRLF
     +:+ "Connection: close" +:+ CRLF
     +:+ "Access-Control-Allow-Origin: *" +:+ CRLF
     +:+ CRLF +:+ "Bad Request"]
  /\ socket_isOpen (OnReadyRead Fake.exec Fake.toJson Fake.fromJson 1 (env_receive 1 (bare_request "GARBAGE") (connected Fake.idle))) 1 = false.
Proof. split; reflexivity. Qed.

Example scenario_legacy_save :
  let request := "POST /api/record/save HTTP/1.1" +:+ CRLF
                 +:+ "Content-Type: application/json" +:+ CRLF +:+ CRLF +:+ "{}" in
  socket_written (OnReadyRead Fake.exec Fake.toJson Fake.fromJson 1 (env_receive 1 request (connected Fake.recording))) 1
  = [response_bytes 200 "application/json" (Fake.toJson (success_envelope ∅))]
  /\ calls (OnReadyRead Fake.exec Fake.toJson Fake.fromJson 1 (env_receive 1 request (connected Fake.recording))) = [OnRecordSave false]
  /\ request_headers request !! "content-type" = Some "application/json".
Proof. repeat split; reflexivity. Qed.

Example scenario_not_found :
  socket_written
    (OnReadyRead Fake.exec Fake.toJson Fake.fromJson 1
       (env_receive 1 (bare_request "GET /stop HTTP/1.1") (connected Fake.recording))) 1
  = ["HTTP/1.1 404 Not Found" +:+ CRLF
     +:+ "Content-Type: text/plain" +:+ CRLF
     +:+ "Content-Length: 9" +:+ CRLF
     +:+ "Connection: close" +:+ CRLF
     +:+ "Access-Control-Allow-Origin: *" +:+ CRLF
     +:+ CRLF +:+ "Not Found"].
Proof. reflexivity. Qed.

Example scenario_unknown_api :
  let st' := OnReadyRead Fake.exec Fake.toJson Fake.fromJson 1
               (env_receive 1 (bare_request "GET /api/record/stop HTTP/1.1")
                  (connected Fake.recording)) in
  socket_written st' 1
  = [response_bytes 200 "application/json"
       (Fake.toJson (error_envelope "Unknown API endpoint"))]
  /\ calls st' = [].
Proof. split; reflexivity. Qed.

(** A buffer cut short by a NUL byte is judged on what is left of it. *)
Example scenario_nul_in_request_line :
  request_line ("GET" +:+ String NUL " / HTTP/1.1" +:+ CRLF +:+ CRLF) = ["GET"]
  /\ token_count (first_line ("GET" +:+ String NUL " / HTTP/1.1" +:+ CRLF +:+ CRLF)) = 3%nat.
Proof. split; reflexivity. Qed.

(** Construction refuses a null recorder. *)
Example construct_null : HTTPServer_new None = inl "PageRecord is NULL".
Proof. reflexivity. Qed.

(** ** Further properties, across parsers *)

(** X18. Of a request that reaches the dispatch only the normalized path
    counts: two requests with the same normalized path, handled in the
    same state on the same socket, lead to the same state, whatever their
    methods, versions, header lines and bodies, and whatever the JSON
    parser makes of a body (the legacy route parses it and does not look
    at the result). *)
Theorem request_decided_by_path
    (page_record_exec : Command -> PageRecord -> PageRecord)
    (toJson : QJsonObject -> string)
    (fromJson1 fromJson2 : string -> option QJsonObject)
    (socket : nat) (request1 request2 : string) (st : HTTPServer) :
  reaches_dispatch socket request1 st = true ->
  reaches_dispatch socket request2 st = true ->
  normalized_path request1 = normalized_path request2 ->
  HandleRequest page_record_exec toJson fromJson1 socket request1 st
  = HandleRequest page_record_exec toJson fromJson2 socket request2 st.
Proof.
  intros H1 H2 Hp.
  rewrite !HandleRequest_dispatch by done.
  rewrite !dispatch_eq. by rewrite Hp.
Qed.

(** ** The further properties at work on concrete requests *)

Ltac free_of_literal := unfold free_of; vm_compute; intuition discriminate.

Lemma one_response_per_request_witness :
  let st := connected Fake.recording in
  let st' := HandleRequest Fake.exec Fake.toJson Fake.fromJson 1
               (bare_request "GET /status HTTP/1.1") st in
  (exists status content_type content,
     replied st st' 1 status content_type content)
  /\ same_elsewhere 1 st st'
  /\ m_server st' = m_server st
  /\ same_elsewhere 1 st (OnDisconnected 1 st')
  /\ m_request_buffers (OnDisconnected 1 st') !! 1%nat = None
  /\ m_server (OnDisconnected 1 st') = m_server st.
Proof.
  apply (one_response_per_request Fake.exec Fake.toJson Fake.fromJson 1
           (bare_request "GET /status HTTP/1.1") (connected Fake.recording)).
  - discriminate.
  - reflexivity.
Defined.

Lemma slot_calls_are_allowed_witness :
  let st := connected Fake.idle in
  let st' := HandleRequest Fake.exec Fake.toJson Fake.fromJson 1
               (bare_request "POST /start HTTP/1.1") st in
  (calls st' = calls st /\ m_page_record st' = Some Fake.idle)
  \/ (exists c, allowed c Fake.idle = true
                /\ calls st' = (calls st ++ [c])%list
                /\ m_page_record st' = Some (Fake.exec c Fake.idle)).
Proof.
  apply (slot_calls_are_allowed Fake.exec Fake.toJson Fake.fromJson 1
           (bare_request "POST /start HTTP/1.1") (connected Fake.idle) Fake.idle).
  reflexivity.
Defined.

Lemma index_page_witness :
  let st := connected Fake.recording in
  let st' := HandleRequest Fake.exec Fake.toJson Fake.fromJson 1
               (bare_request "GET /index.html HTTP/1.1") st in
  replied st st' 1 200 "text/plain" index_content
  /\ calls st' = calls st
  /\ m_page_record st' = m_page_record st.
Proof.
  apply (index_page Fake.exec Fake.toJson Fake.fromJson 1
           (bare_request "GET /index.html HTTP/1.1") (connected Fake.recording)).
  - reflexivity.
  - right. left. reflexivity.
Defined.

Lemma no_access_error_is_dead_witness :
  let st := connected Fake.idle in
  (HandleAPIStartRecording Fake.exec st).1 <> error_envelope "No access to recording page"
  /\ (HandleAPIPauseRecording Fake.exec st).1 <> error_envelope "No access to recording page"
  /\ (HandleAPICancelRecording Fake.exec st).1
     <> error_envelope "No access to recording page"
  /\ (HandleAPISaveRecording Fake.exec st).1 <> error_envelope "No access to recording page"
  /\ (HandleAPIStatus st).1 <> success_envelope ∅.
Proof.
  apply (no_access_error_is_dead Fake.exec Fake.toJson Fake.fromJson (connected Fake.idle)).
  unfold connected.
  eapply reachable_step; [|apply step_OnNewConnection].
  eapply reachable_step; [|apply step_connect].
  eapply reachable_step; [|apply step_Start].
  eapply reachable_new. reflexivity.
Defined.

Lemma one_reply_per_connection_witness :
  one_reply_each
    (OnReadyRead Fake.exec Fake.toJson Fake.fromJson 1
       (env_receive 1 (bare_request "GET /status HTTP/1.1") (connected Fake.recording))).
Proof.
  apply (one_reply_per_connection Fake.exec Fake.toJson Fake.fromJson).
  eapply reachable_step; [|apply step_OnReadyRead].
  eapply reachable_step; [|apply step_receive].
  unfold connected.
  eapply reachable_step; [|apply step_OnNewConnection].
  eapply reachable_step; [|apply step_connect].
  eapply reachable_step; [|apply step_Start].
  eapply reachable_new. reflexivity.
Defined.

Lemma ready_read_outcome_witness :
  let request := bare_request "GET /status HTTP/1.1" in
  let st := env_receive 1 request (connected Fake.recording) in
  let s := {| isOpen := true; incoming := request; written := [] |} in
  let st' := OnReadyRead Fake.exec Fake.toJson Fake.fromJson 1 st in
  let buffer := "" +:+ incoming s in
  if contains buffer terminator
  then m_request_buffers st' = <[1%nat := ""]> (m_request_buffers st)
       /\ (exists status content_type content,
             socket_written st' 1
             = (written s ++ [response_bytes status content_type content])%list)
       /\ socket_isOpen st' 1 = false
       /\ calls st' = calls (HandleRequest Fake.exec Fake.toJson Fake.fromJson 1 buffer st)
       /\ m_page_record st'
          = m_page_record (HandleRequest Fake.exec Fake.toJson Fake.fromJson 1 buffer st)
  else m_request_buffers st' = <[1%nat := buffer]> (m_request_buffers st)
       /\ socket_written st' 1 = written s
       /\ socket_isOpen st' 1 = true
       /\ calls st' = calls st
       /\ m_page_record st' = m_page_record st.
Proof.
  apply (ready_read_outcome Fake.exec Fake.toJson Fake.fromJson 1
           (env_receive 1 (bare_request "GET /status HTTP/1.1") (connected Fake.recording))
           "" {| isOpen := true; incoming := bare_request "GET /status HTTP/1.1";
                 written := [] |}).
  - discriminate.
  - reflexivity.
  - reflexivity.
  - reflexivity.
  - discriminate.
Defined.

Lemma fragments_add_up_witness :
  let st := connected Fake.idle in
  let d1 := "POST /sta" in
  let d2 := "rt HTTP/1.1" +:+ CRLF +:+ CRLF in
  OnReadyRead Fake.exec Fake.toJson Fake.fromJson 1
    (env_receive 1 d2
       (OnReadyRead Fake.exec Fake.toJson Fake.fromJson 1 (env_receive 1 d1 st)))
  = OnReadyRead Fake.exec Fake.toJson Fake.fromJson 1 (env_receive 1 (d1 +:+ d2) st).
Proof.
  apply (fragments_add_up Fake.exec Fake.toJson Fake.fromJson 1 (connected Fake.idle)
           "" {| isOpen := true; incoming := ""; written := [] |}
           "POST /sta" ("rt HTTP/1.1" +:+ CRLF +:+ CRLF)).
  - discriminate.
  - reflexivity.
  - reflexivity.
  - reflexivity.
  - reflexivity.
  - discriminate.
  - discriminate.
  - reflexivity.
Defined.

Lemma disconnect_forgets_witness :
  let st := connected Fake.idle in
  let st' := OnDisconnected 1 st in
  m_request_buffers st' !! 1%nat = None
  /\ sockets st' !! 1%nat = None
  /\ same_elsewhere 1 st st'
  /\ calls st' = calls st
  /\ m_page_record st' = m_page_record st
  /\ (forall data, env_receive 1 data st' = st')
  /\ OnReadyRead Fake.exec Fake.toJson Fake.fromJson 1 st' = st'
  /\ OnDisconnected 1 st' = st'.
Proof.
  apply (disconnect_forgets Fake.exec Fake.toJson Fake.fromJson 1 (connected Fake.idle)).
  discriminate.
Defined.

Lemma connection_leaves_no_trace_witness :
  let st := (Start true 8080 (HTTPServer_init Fake.idle)).2 in
  let st' := OnDisconnected 1
               (OnReadyRead Fake.exec Fake.toJson Fake.fromJson 1
                  (env_receive 1 (bare_request "POST /start HTTP/1.1")
                     (OnNewConnection (env_connect 1 st)))) in
  m_request_buffers st' = m_request_buffers st
  /\ sockets st' = sockets st
  /\ m_server st' = m_server st.
Proof.
  apply (connection_leaves_no_trace Fake.exec Fake.toJson Fake.fromJson 1
           (bare_request "POST /start HTTP/1.1")
           (Start true 8080 (HTTPServer_init Fake.idle)).2).
  - discriminate.
  - reflexivity.
  - reflexivity.
  - reflexivity.
  - reflexivity.
Defined.

Lemma stop_spares_accepted_witness :
  let st := env_receive 1 (bare_request "POST /start HTTP/1.1") (connected Fake.idle) in
  OnReadyRead Fake.exec Fake.toJson Fake.fromJson 1 (Stop st)
  = Stop (OnReadyRead Fake.exec Fake.toJson Fake.fromJson 1 st)
  /\ calls (OnReadyRead Fake.exec Fake.toJson Fake.fromJson 1 (Stop st))
     = calls (OnReadyRead Fake.exec Fake.toJson Fake.fromJson 1 st)
  /\ socket_written (OnReadyRead Fake.exec Fake.toJson Fake.fromJson 1 (Stop st)) 1
     = socket_written (OnReadyRead Fake.exec Fake.toJson Fake.fromJson 1 st) 1.
Proof.
  apply (stop_spares_accepted Fake.exec Fake.toJson Fake.fromJson 1
           (env_receive 1 (bare_request "POST /start HTTP/1.1") (connected Fake.idle))).
  vm_compute. intros [].
Defined.

Lemma lines_round_trip_witness :
  request_lines (join_lines ["GET / HTTP/1.1"; "Host: localhost"; ""; ""])
  = ["GET / HTTP/1.1"; "Host: localhost"; ""; ""].
Proof.
  apply (lines_round_trip ["GET / HTTP/1.1"; "Host: localhost"; ""; ""]).
  - discriminate.
  - repeat constructor; try reflexivity; free_of_literal.
Defined.

Lemma request_line_round_trip_witness :
  let request := ("POST" +:+ " " +:+ "/record/start" +:+ " " +:+ "HTTP/1.1")
                 +:+ CRLF +:+ CRLF in
  request_line request = ["POST"; "/record/start"; "HTTP/1.1"]
  /\ (forall p, "/record/start" = "/" +:+ p -> normalized_path request = p)
  /\ (startsWith "/record/start" "/" = false -> normalized_path request = "/record/start").
Proof.
  apply (request_line_round_trip "POST" "/record/start" "HTTP/1.1" CRLF);
    try reflexivity; free_of_literal.
Defined.

Lemma body_after_blank_line_witness :
  request_body
    (join_lines ["POST /api/record/save HTTP/1.1"; "Content-Type: application/json"]
     +:+ terminator +:+ "{}")
  = "{}".
Proof.
  apply (body_after_blank_line
           ["POST /api/record/save HTTP/1.1"; "Content-Type: application/json"] "{}").
  - discriminate.
  - repeat constructor; try discriminate; free_of_literal.
Defined.

Lemma response_reads_back_witness :
  let response := response_bytes 404 "text/plain" "Not Found" in
  first_line response = "HTTP/1.1 " +:+ arg_int 404 +:+ " " +:+ statusText 404
  /\ request_body response = "Not Found".
Proof.
  apply (response_reads_back 404 "text/plain" "Not Found").
  free_of_literal.
Defined.

Lemma headers_are_normalised_witness :
  let request := "GET / HTTP/1.1" +:+ CRLF +:+ " Content-Type : application/json "
                 +:+ CRLF +:+ CRLF in
  toLower "content-type" = "content-type"
  /\ trimmed "content-type" = "content-type"
  /\ trimmed "application/json" = "application/json"
  /\ (forall k', toLower k' <> k' -> request_headers request !! k' = None).
Proof.
  apply (headers_are_normalised
           ("GET / HTTP/1.1" +:+ CRLF +:+ " Content-Type : application/json "
            +:+ CRLF +:+ CRLF) "content-type" "application/json").
  reflexivity.
Defined.

Lemma request_decided_by_path_witness :
  let st := connected Fake.recording in
  HandleRequest Fake.exec Fake.toJson Fake.fromJson 1
    (bare_request "GET /record/save HTTP/1.1") st
  = HandleRequest Fake.exec Fake.toJson (fun _ => None) 1
      ("POST record/save HTTP/1.0" +:+ CRLF +:+ "X-Any: thing" +:+ CRLF +:+ CRLF
       +:+ "not json") st.
Proof.
  apply (request_decided_by_path Fake.exec Fake.toJson Fake.fromJson (fun _ => None) 1
           (bare_request "GET /record/save HTTP/1.1")
           ("POST record/save HTTP/1.0" +:+ CRLF +:+ "X-Any: thing" +:+ CRLF +:+ CRLF
            +:+ "not json")
           (connected Fake.recording)); reflexivity.
Defined.

Lemma disconnect_inside_close_witness :
  let request := bare_request "POST /start HTTP/1.1" in
  let st := env_receive 1 request (connected Fake.idle) in
  OnReadyRead_sync Fake.exec Fake.toJson Fake.fromJson 1 st
  = OnDisconnected 1 (OnReadyRead Fake.exec Fake.toJson Fake.fromJson 1 st)
  /\ m_request_buffers (OnReadyRead_sync Fake.exec Fake.toJson Fake.fromJson 1 st) !! 1%nat
     = None.
Proof.
  apply (disconnect_inside_close Fake.exec Fake.toJson Fake.fromJson 1
           (env_receive 1 (bare_request "POST /start HTTP/1.1") (connected Fake.idle))
           "" {| isOpen := true; incoming := bare_request "POST /start HTTP/1.1";
                 written := [] |}).
  - discriminate.
  - reflexivity.
  - reflexivity.
  - reflexivity.
  - discriminate.
  - reflexivity.
Defined.
